(** * renderer.js: the capture-and-transmission pipeline

    A shallow embedding of [src/utils/renderer.js]: the token tracker used
    for rate limiting, the screen-change detector inside
    [captureScreenshot], the audio chunking handlers, the sample converter
    and [sendTextMessage].

    Conventions of the embedding.
    - A JavaScript number that holds an integer (timestamps in
      milliseconds, token counts, canvas dimensions, bytes) is a [Z].
      Quotients such as [width / 768] or [elapsed / 1000] are exact
      rationals ([Q]); the integers involved are far below 2^53, where the
      binary64 quotient rounds to the same floor and ceiling.
    - Every call of [Date.now()] is an explicit argument, one per call
      site, in the order the source performs them.
    - Module-level [let] variables are fields of a record that is passed
      and returned. *)

From Stdlib Require Import ZArith QArith Qround Bool String Ascii List Lia.
From Stdlib Require Import Permutation Sorted RelationClasses.
Import ListNotations.

#[local] Open Scope Z_scope.

(** ** Token tracking system for rate limiting *)

Module TokenTracker.

Inductive TokenType := image | audio.

(** The objects pushed by [addTokens]: [{timestamp, count, type}]. *)
Record TokenEvent := mkTokenEvent {
  timestamp : Z;
  count : Z;
  type : TokenType
}.

(** [tokenTracker]: the [tokens] array and [audioStartTime]
    ([None] is [null]). *)
Record t := mk {
  tokens : list TokenEvent;
  audioStartTime : option Z
}.

Definition init : t := mk [] None.

(** [cleanOldTokens]: keeps the events with
    [token.timestamp > Date.now() - 60 * 1000]. *)
Definition cleanOldTokens (now : Z) (tr : t) : t :=
  let oneMinuteAgo := now - 60 * 1000 in
  mk (filter (fun token => oneMinuteAgo <? timestamp token) (tokens tr))
     (audioStartTime tr).

(** [addTokens(count, type)]: [nowPush] is the reading stored in the
    event, [nowClean] the one taken by the purge that follows. *)
Definition addTokens (nowPush nowClean : Z) (cnt : Z) (ty : TokenType)
    (tr : t) : t :=
  let pushed := mk (tokens tr ++ [mkTokenEvent nowPush cnt ty])
                   (audioStartTime tr) in
  cleanOldTokens nowClean pushed.

(** [calculateImageTokens(width, height)]. *)
Definition calculateImageTokens (width height : Z) : Z :=
  if (width <=? 384) && (height <=? 384) then 258
  else
    let tilesX := Qceiling (width # 768) in
    let tilesY := Qceiling (height # 768) in
    let totalTiles := tilesX * tilesY in
    totalTiles * 258.

(** JavaScript truthiness of [this.audioStartTime]: [null] and [0] are
    falsy. *)
Definition truthy (v : option Z) : bool :=
  match v with
  | None => false
  | Some n => negb (n =? 0)
  end.

(** [elapsedSeconds * 32], floored. *)
Definition audioTokensFor (start now : Z) : Z :=
  let elapsedSeconds := ((now - start) # 1000)%Q in
  Qfloor (elapsedSeconds * 32).

(** [trackAudioTokens]: [now] is the first [Date.now()] of the call,
    [nowPush] and [nowClean] the two taken inside [addTokens]. *)
Definition trackAudioTokens (now nowPush nowClean : Z) (tr : t) : t :=
  if negb (truthy (audioStartTime tr)) then
    mk (tokens tr) (Some now)
  else
    let start := match audioStartTime tr with Some s => s | None => 0 end in
    let audioTokens := audioTokensFor start now in
    if 0 <? audioTokens then
      let tr' := addTokens nowPush nowClean audioTokens audio tr in
      mk (tokens tr') (Some now)
    else tr.

(** [reduce((total, token) => total + token.count, 0)]. *)
Definition sumCounts (l : list TokenEvent) : Z :=
  fold_left (fun total token => total + count token) l 0.

(** [getTokensInLastMinute]: purges, then sums; returns the purged
    tracker and the total. *)
Definition getTokensInLastMinute (now : Z) (tr : t) : t * Z :=
  let tr' := cleanOldTokens now tr in
  (tr', sumCounts (tokens tr')).

Definition reset (tr : t) : t := mk [] None.

End TokenTracker.

(** ** JavaScript strings and the ambient key-value storage *)

(** A JavaScript string is its sequence of UTF-16 code units. *)
Definition jsstring := list N.

(** A string literal of the source (ASCII). *)
Definition lit (s : string) : jsstring :=
  map N_of_ascii (list_ascii_of_string s).

Definition jsstring_eqb (a b : jsstring) : bool :=
  if list_eq_dec N.eq_dec a b then true else false.

Module JSString.

#[local] Open Scope N_scope.

(** ECMAScript [WhiteSpace] and [LineTerminator] code points, the
    characters removed by [String.prototype.trim] and skipped by
    [parseInt]. *)
Definition isWhiteSpace (c : N) : bool :=
  (c =? 9) || (c =? 10) || (c =? 11) || (c =? 12) || (c =? 13) ||
  (c =? 32) || (c =? 160) || (c =? 5760) ||
  ((8192 <=? c) && (c <=? 8202)) ||
  (c =? 8232) || (c =? 8233) || (c =? 8239) || (c =? 8287) ||
  (c =? 12288) || (c =? 65279).

Fixpoint trimStart (s : jsstring) : jsstring :=
  match s with
  | [] => []
  | c :: rest => if isWhiteSpace c then trimStart rest else s
  end.

Definition trimEnd (s : jsstring) : jsstring :=
  rev (trimStart (rev s)).

(** [text.trim()]. *)
Definition trim (s : jsstring) : jsstring := trimEnd (trimStart s).

Definition isDigit (c : N) : bool := (48 <=? c) && (c <=? 57).

(** The decimal digits at the front of [s], accumulated left to right;
    [None] when there is none. *)
Fixpoint digits (s : jsstring) (acc : option Z) : option Z :=
  match s with
  | [] => acc
  | c :: rest =>
      if isDigit c then
        let d := Z.of_N (c - 48) in
        digits rest (Some (match acc with
                           | Some a => (10 * a + d)%Z
                           | None => d
                           end))
      else acc
  end.

(** [parseInt(s, 10)]; [None] is [NaN]. *)
Definition parseInt10 (s : jsstring) : option Z :=
  match trimStart s with
  | [] => None
  | c :: rest =>
      if c =? 45 then option_map Z.opp (digits rest None)
      else if c =? 43 then digits rest None
      else digits (c :: rest) None
  end.

End JSString.

(** [localStorage.getItem]: [None] is [null]. *)
Definition Storage := string -> option jsstring.

(** [localStorage.getItem(key) || dflt]: [null] and the empty string are
    falsy. *)
Definition getItemOr (ls : Storage) (key : string) (dflt : jsstring)
    : jsstring :=
  match ls key with
  | None => dflt
  | Some [] => dflt
  | Some v => v
  end.

Module Throttle.
Import TokenTracker.

Definition throttleEnabled (ls : Storage) : bool :=
  match ls "throttleTokens"%string with
  | Some v => jsstring_eqb v (lit "true")
  | None => false
  end.

Definition maxTokensPerMin (ls : Storage) : option Z :=
  JSString.parseInt10 (getItemOr ls "maxTokensPerMin" (lit "1000000")).

Definition throttleAtPercent (ls : Storage) : option Z :=
  JSString.parseInt10 (getItemOr ls "throttleAtPercent" (lit "75")).

(** [Math.floor((maxTokensPerMin * throttleAtPercent) / 100)]; [None]
    when either setting parsed to [NaN]. *)
Definition throttleThreshold (ls : Storage) : option Z :=
  match maxTokensPerMin ls, throttleAtPercent ls with
  | Some m, Some p => Some (Qfloor ((m * p) # 100))
  | _, _ => None
  end.

(** [tokenTracker.shouldThrottle()]. The tracker is purged only when
    throttling is enabled; a comparison with [NaN] is false. *)
Definition shouldThrottle (ls : Storage) (now : Z) (tr : t) : t * bool :=
  if negb (throttleEnabled ls) then (tr, false)
  else
    let '(tr', currentTokens) := getTokensInLastMinute now tr in
    match throttleThreshold ls with
    | Some threshold => (tr', threshold <=? currentTokens)
    | None => (tr', false)
    end.

End Throttle.

(** ** The intermediary process *)

(** The result object of an [ipcRenderer.invoke] request. *)
Record SendResult := mkResult {
  success : bool;
  error : option jsstring
}.

(** The requests this file sends. *)
Inductive IpcCall :=
| SendImageContent (data : jsstring)
| SendAudioContent (data : jsstring) (mimeType : jsstring)
| SendTextMessage (text : jsstring).

(** An awaited [invoke] either resolves with a result object or rejects
    with an error carrying a message. *)
Inductive IpcOutcome :=
| Resolved (result : SendResult)
| Rejected (message : jsstring).

(** ** Screen-change detection *)

Module FrameDiff.

Definition DIFF_CANVAS_WIDTH : Z := 160.
Definition DIFF_CANVAS_HEIGHT : Z := 90.
Definition SCREEN_CHANGE_THRESHOLD : Q := 5 # 100.
Definition MIN_SEND_INTERVAL_MS : Z := 1500.

(** [Math.abs(a[i] - b[i])]; an index past the end reads [undefined]
    and the difference is [NaN], here [None]. *)
Definition absDiff (a b : list Z) (k : nat) : option Z :=
  match nth_error a k, nth_error b k with
  | Some x, Some y => Some (Z.abs (x - y))
  | _, _ => None
  end.

(** [d > 10], false for [NaN]. *)
Definition noticeable (d : option Z) : bool :=
  match d with
  | Some v => 10 <? v
  | None => false
  end.

(** The body of the comparison at the pixel that starts both views:
    [rDiff > 10 || gDiff > 10 || bDiff > 10], alpha ignored. *)
Definition pixelChanged (cur last : list Z) : bool :=
  noticeable (absDiff cur last 0) ||
  noticeable (absDiff cur last 1) ||
  noticeable (absDiff cur last 2).

(** [for (let i = 0; i < diffImageData.length; i += 4)]: [cur] and
    [last] are the two arrays from index [i] on. *)
Fixpoint diffLoop (fuel : nat) (cur last : list Z) (changedPixels : Z)
    : Z :=
  match fuel with
  | O => changedPixels
  | S fuel' =>
      match cur with
      | [] => changedPixels
      | _ :: _ =>
          diffLoop fuel' (skipn 4 cur) (skipn 4 last)
            (if pixelChanged cur last then changedPixels + 1
             else changedPixels)
      end
  end.

Definition changedPixels (diffImageData lastSentDiffData : list Z) : Z :=
  diffLoop (length diffImageData) diffImageData lastSentDiffData 0.

Definition totalPixels : Z := DIFF_CANVAS_WIDTH * DIFF_CANVAS_HEIGHT.

(** [changedPixels / totalPixels]. *)
Definition changeRatio (diffImageData lastSentDiffData : list Z) : Q :=
  inject_Z (changedPixels diffImageData lastSentDiffData)
  / inject_Z totalPixels.

(** The change test of [captureScreenshot] on its own: with no
    baseline the frame goes on; with one, it goes on unless
    [changeRatio < SCREEN_CHANGE_THRESHOLD]. *)
Definition shouldTransmit (lastSentDiffData : option (list Z))
    (diffImageData : list Z) : bool :=
  match lastSentDiffData with
  | None => true
  | Some last =>
      if Qlt_le_dec (changeRatio diffImageData last)
                    SCREEN_CHANGE_THRESHOLD
      then false else true
  end.

End FrameDiff.

(** ** Module state and [captureScreenshot] *)

Module Renderer.
Import TokenTracker.

(** The module-level variables that [captureScreenshot],
    [startCapture] and [stopCapture] read and write. [mediaStream] is
    whether the variable holds a stream; [offscreenCanvas] stands for
    [hiddenVideo], [offscreenCanvas] and [offscreenContext], which are
    created and cleared together, and holds the canvas width and
    height. *)
Record t := mk {
  tokenTracker : TokenTracker.t;
  mediaStream : bool;
  offscreenCanvas : option (Z * Z);
  lastSentDiffData : option (list Z);
  lastScreenshotSentTime : Z
}.

(** The values at module load. *)
Definition init : t := mk TokenTracker.init false None None 0.

(** What one call of [captureScreenshot] reads from outside the module
    state, in the order it reads it. *)
Record Env := mkEnv {
  localStorage : Storage;
  nowThrottle : Z;          (* Date.now() of the purge in shouldThrottle *)
  videoWidth : Z;           (* hiddenVideo.videoWidth at lazy init *)
  videoHeight : Z;
  readyState : Z;           (* hiddenVideo.readyState *)
  diffImageData : list Z;   (* getImageData(0, 0, 160, 90).data *)
  nowInterval : Z;          (* Date.now() of the send-interval test *)
  blob : bool;              (* toBlob produced a blob *)
  base64data : option jsstring;  (* reader.result.split(',')[1] *)
  sendOutcome : IpcOutcome; (* what send-image-content comes back with *)
  nowPush : Z;              (* Date.now() stored by addTokens *)
  nowClean : Z;             (* Date.now() of the purge in addTokens *)
  nowSent : Z               (* Date.now() stored as lastScreenshotSentTime *)
}.

(** Where a call of [captureScreenshot] ends. [SendRejected] and
    [CanvasCleared] are the two exceptions that can leave the
    [onloadend] handler: a rejected request, and reading the width of a
    canvas that [stopCapture] has set to [null]. *)
Inductive Outcome :=
| NoMediaStream
| RateLimited
| VideoNotReady
| BelowThreshold
| MinIntervalNotMet
| BlobFailed
| InvalidBase64
| SendRejected
| SendFailed
| CanvasCleared
| Sent (imageTokens : Z).

Record Step := mkStep {
  after : t;
  outcome : Outcome;
  calls : list IpcCall
}.

(** [!base64data || base64data.length < 100]. *)
Definition invalidBase64 (d : option jsstring) : bool :=
  match d with
  | None => true
  | Some s => (Z.of_nat (List.length s) <? 100)
  end.

(** The [toBlob] callback and the [onloadend] handler under it. *)
Definition encodeAndSend (env : Env) (r : t) : Step :=
  if negb (blob env) then mkStep r BlobFailed []
  else
    match base64data env with
    | None => mkStep r InvalidBase64 []
    | Some data =>
        if invalidBase64 (Some data) then mkStep r InvalidBase64 []
        else
          let sent := [SendImageContent data] in
          match sendOutcome env with
          | Rejected _ => mkStep r SendRejected sent
          | Resolved result =>
              if success result then
                match offscreenCanvas r with
                | None => mkStep r CanvasCleared sent
                | Some (w, h) =>
                    let imageTokens := calculateImageTokens w h in
                    let tr := addTokens (nowPush env) (nowClean env)
                                imageTokens image (tokenTracker r) in
                    mkStep (mk tr (mediaStream r) (offscreenCanvas r)
                               (lastSentDiffData r) (nowSent env))
                           (Sent imageTokens) sent
                end
              else mkStep r SendFailed sent
          end
    end.

(** The block under [if (!isManual)], after the frame has been drawn to
    the diff canvas. [inl] is an early [return]. *)
Definition changeDetection (env : Env) (r : t) : Outcome + t :=
  match lastSentDiffData r with
  | Some last =>
      if Qlt_le_dec (FrameDiff.changeRatio (diffImageData env) last)
                    FrameDiff.SCREEN_CHANGE_THRESHOLD
      then inl BelowThreshold
      else if nowInterval env - lastScreenshotSentTime r
              <? FrameDiff.MIN_SEND_INTERVAL_MS
      then inl MinIntervalNotMet
      else inr (mk (tokenTracker r) (mediaStream r) (offscreenCanvas r)
                   (Some (diffImageData env)) (lastScreenshotSentTime r))
  | None => inr r
  end.

(** [captureScreenshot(imageQuality, isManual)]. The encoding quality
    only selects the JPEG bytes, which reach the model as
    [base64data]. *)
Definition captureScreenshot (isManual : bool) (env : Env) (r : t) : Step :=
  if negb (mediaStream r) then mkStep r NoMediaStream []
  else
    let '(tr, throttled) :=
      if isManual then (tokenTracker r, false)
      else Throttle.shouldThrottle (localStorage env) (nowThrottle env)
                                   (tokenTracker r) in
    let r1 := mk tr (mediaStream r) (offscreenCanvas r)
                 (lastSentDiffData r) (lastScreenshotSentTime r) in
    if throttled then mkStep r1 RateLimited []
    else
      let canvas := match offscreenCanvas r1 with
                    | Some wh => wh
                    | None => (videoWidth env, videoHeight env)
                    end in
      let r2 := mk tr (mediaStream r1) (Some canvas)
                   (lastSentDiffData r1) (lastScreenshotSentTime r1) in
      if readyState env <? 2 then mkStep r2 VideoNotReady []
      else if isManual then encodeAndSend env r2
      else
        match changeDetection env r2 with
        | inl skipped => mkStep r2 skipped []
        | inr r3 => encodeAndSend env r3
        end.

(** [startCapture]: resets the token tracker and, when the platform
    hands over a display stream, stores it. *)
Definition startCapture (acquired : bool) (r : t) : t :=
  mk (TokenTracker.reset (tokenTracker r))
     (if acquired then true else mediaStream r)
     (offscreenCanvas r) (lastSentDiffData r) (lastScreenshotSentTime r).

(** [stopCapture]. *)
Definition stopCapture (r : t) : t :=
  mk (tokenTracker r) false None
     (lastSentDiffData r) (lastScreenshotSentTime r).

(** What happens to the module state during a page's life. *)
Inductive Action :=
| Start (acquired : bool)
| Stop
| Capture (isManual : bool) (env : Env)
| AudioTick (now nowPush nowClean : Z).

Definition step (a : Action) (r : t) : t * list Outcome :=
  match a with
  | Start acquired => (startCapture acquired r, [])
  | Stop => (stopCapture r, [])
  | Capture isManual env =>
      let s := captureScreenshot isManual env r in
      (after s, [outcome s])
  | AudioTick now nowPush nowClean =>
      (mk (trackAudioTokens now nowPush nowClean (tokenTracker r))
          (mediaStream r) (offscreenCanvas r)
          (lastSentDiffData r) (lastScreenshotSentTime r), [])
  end.

(** The states passed through and the outcome of every capture. *)
Fixpoint run (actions : list Action) (r : t) : t * list Outcome :=
  match actions with
  | [] => (r, [])
  | a :: rest =>
      let '(r1, o1) := step a r in
      let '(r2, o2) := run rest r1 in
      (r2, o1 ++ o2)
  end.

End Renderer.

(** ** Sample conversion and transport encoding *)

Module SampleConverter.

(** A JavaScript number as an audio sample: a rational, [NaN] or an
    infinity. Products are exact; binary64 rounds [s * 0x7fff] to 53
    bits, which this model leaves out. *)
Inductive number :=
| NaN
| Finite (q : Q)
| Infinity (negative : bool).

(** [a < b]; every comparison with [NaN] is false. *)
Definition lt (a b : number) : bool :=
  match a, b with
  | NaN, _ | _, NaN => false
  | Finite p, Finite q => negb (Qle_bool q p)
  | Finite _, Infinity negative => negb negative
  | Infinity negative, Finite _ => negative
  | Infinity n1, Infinity n2 => n1 && negb n2
  end.

(** [Math.min(a, b)] and [Math.max(a, b)]: [NaN] if either is. *)
Definition Math_min (a b : number) : number :=
  match a, b with
  | NaN, _ | _, NaN => NaN
  | _, _ => if lt b a then b else a
  end.

Definition Math_max (a b : number) : number :=
  match a, b with
  | NaN, _ | _, NaN => NaN
  | _, _ => if lt a b then b else a
  end.

(** [a * b]. *)
Definition mul (a b : number) : number :=
  match a, b with
  | NaN, _ | _, NaN => NaN
  | Finite p, Finite q => Finite (p * q)
  | Finite p, Infinity n | Infinity n, Finite p =>
      if Qeq_bool p 0 then NaN
      else Infinity (xorb n (negb (Qle_bool 0 p)))
  | Infinity n1, Infinity n2 => Infinity (xorb n1 n2)
  end.

(** Rounding toward zero. *)
Definition truncate (q : Q) : Z := Z.quot (Qnum q) (Z.pos (Qden q)).

(** Reduction of an integer to the signed 16-bit range. *)
Definition wrap16 (z : Z) : Z := (z + 32768) mod 65536 - 32768.

(** Storing a number into an [Int16Array] element: [NaN] and the
    infinities become 0, the rest is truncated and wrapped. *)
Definition toInt16 (x : number) : Z :=
  match x with
  | Finite q => wrap16 (truncate q)
  | _ => 0
  end.

Definition one : number := Finite 1.
Definition minusOne : number := Finite (-1).
Definition zero : number := Finite 0.

(** One iteration of the loop of [convertFloat32ToInt16]. *)
Definition convertSample (x : number) : Z :=
  let s := Math_max minusOne (Math_min one x) in
  toInt16 (if lt s zero then mul s (Finite 32768)   (* 0x8000 *)
           else mul s (Finite 32767)).              (* 0x7fff *)

Definition convertFloat32ToInt16 (float32Array : list number) : list Z :=
  map convertSample float32Array.

(** The bytes of an [Int16Array]'s buffer, little-endian. *)
Definition bufferOf (int16Array : list Z) : list Z :=
  flat_map (fun v => let u := v mod 65536 in [u mod 256; u / 256])
           int16Array.

(** The character for a 6-bit group in the base64 alphabet. *)
Definition base64Char (i : Z) : N :=
  Z.to_N (if i <? 26 then 65 + i
          else if i <? 52 then 97 + (i - 26)
          else if i <? 62 then 48 + (i - 52)
          else if i =? 62 then 43
          else 47).

(** [btoa] on a binary string whose characters are the given bytes. *)
Fixpoint btoa (bytes : list Z) : jsstring :=
  match bytes with
  | [] => []
  | [a] =>
      [base64Char (a / 4); base64Char (a mod 4 * 16); 61%N; 61%N]
  | [a; b] =>
      [base64Char (a / 4); base64Char (a mod 4 * 16 + b / 16);
       base64Char (b mod 16 * 4); 61%N]
  | a :: b :: c :: rest =>
      base64Char (a / 4) :: base64Char (a mod 4 * 16 + b / 16)
      :: base64Char (b mod 16 * 4 + c / 64) :: base64Char (c mod 64)
      :: btoa rest
  end.

(** [arrayBufferToBase64(buffer)]: one character per byte, then
    [btoa]. *)
Definition arrayBufferToBase64 (buffer : list Z) : jsstring := btoa buffer.

End SampleConverter.

(** ** Audio chunking *)

Module AudioChunker.
Import SampleConverter.

Definition SAMPLE_RATE : Z := 24000.
Definition AUDIO_CHUNK_DURATION : Q := 1 # 10.

(** [SAMPLE_RATE * AUDIO_CHUNK_DURATION], the integer 2400. *)
Definition samplesPerChunk : nat :=
  Z.to_nat (Qfloor (inject_Z SAMPLE_RATE * AUDIO_CHUNK_DURATION)).

Definition mimeType : jsstring := lit "audio/pcm;rate=24000".

(** The request built from one chunk. *)
Definition encodeChunk (chunk : list number) : IpcCall :=
  let pcmData16 := convertFloat32ToInt16 chunk in
  let base64Data := arrayBufferToBase64 (bufferOf pcmData16) in
  SendAudioContent base64Data mimeType.

(** How the [while] loop of a handler ends: its test fails, an awaited
    request rejects (the handler has no [catch]), or the model runs out
    of fuel. *)
Inductive LoopEnd := TestFailed | RequestRejected | OutOfFuel.

Record Drained := mkDrained {
  audioBuffer : list number;
  calls : list IpcCall;
  loopEnd : LoopEnd
}.

(** [while (audioBuffer.length >= samplesPerChunk)] with
    [splice(0, samplesPerChunk)] and the awaited request in its body;
    [sink k] is what the [k]-th request of this run comes back with. *)
Fixpoint drain (fuel : nat) (perChunk : nat) (sink : nat -> IpcOutcome)
    (buffer : list number) : Drained :=
  match fuel with
  | O => mkDrained buffer [] OutOfFuel
  | S fuel' =>
      if (perChunk <=? List.length buffer)%nat then
        let chunk := firstn perChunk buffer in
        let rest := skipn perChunk buffer in
        let call := encodeChunk chunk in
        match sink O with
        | Rejected _ => mkDrained rest [call] RequestRejected
        | Resolved _ =>
            let d := drain fuel' perChunk (fun k => sink (S k)) rest in
            mkDrained (audioBuffer d) (call :: calls d) (loopEnd d)
        end
      else mkDrained buffer [] TestFailed
  end.

(** The [onaudioprocess] handler installed by both
    [setupLinuxMicProcessing] and [setupWindowsLoopbackProcessing]:
    [audioBuffer.push(...inputData)], then the loop. Each pass removes
    at least one sample, so the length plus one is fuel enough. *)
Definition onaudioprocessWith (perChunk : nat) (sink : nat -> IpcOutcome)
    (inputData buffer : list number) : Drained :=
  let pushed := buffer ++ inputData in
  drain (S (List.length pushed)) perChunk sink pushed.

Definition onaudioprocess := onaudioprocessWith samplesPerChunk.

End AudioChunker.

(** ** Text messages *)

(** [sendTextMessage(text)]; [None] is a missing ([null] or [undefined])
    argument, [ipc] what the request would come back with. *)
Definition sendTextMessage (text : option jsstring) (ipc : IpcOutcome)
    : SendResult * list IpcCall :=
  let empty := mkResult false (Some (lit "Empty message")) in
  match text with
  | None => (empty, [])
  | Some [] => (empty, [])
  | Some txt =>
      if (List.length (JSString.trim txt) =? 0)%nat then (empty, [])
      else
        match ipc with
        | Resolved result => (result, [SendTextMessage txt])
        | Rejected message =>
            (mkResult false (Some message), [SendTextMessage txt])
        end
  end.

(** ** Manual screenshots *)





(** ** Session initialisation *)

(** The arguments of the [initialize-gemini] request. *)
Record InitRequest := mkInitRequest {
  apiKey : jsstring;
  customPrompt : jsstring;
  profile : jsstring;
  language : jsstring
}.

(** The awaited [initialize-gemini] request resolves with a value that is
    truthy or not, or rejects. *)
Inductive InitOutcome :=
| InitResolved (success : bool)
| InitRejected.

(** [initializeGemini(profile, language)]: the requests made and the
    status passed to [cheddar.setStatus], if any. A missing argument
    ([None]) takes the default of the signature. *)
Definition initializeGemini (ls : Storage)
    (profileArg languageArg : option jsstring) (respond : InitOutcome)
    : list InitRequest * option jsstring :=
  let profile := match profileArg with
                 | Some p => p
                 | None => lit "interview"
                 end in
  let language := match languageArg with
                  | Some l => l
                  | None => lit "en-US"
                  end in
  match option_map JSString.trim (ls "apiKey"%string) with
  | None => ([], None)
  | Some [] => ([], None)
  | Some key =>
      let request :=
        mkInitRequest key (getItemOr ls "customPrompt" []) profile language in
      match respond with
      | InitResolved true => ([request], Some (lit "Live"))
      | InitResolved false => ([request], Some (lit "error"))
      | InitRejected => ([request], None)
      end
  end.

(** ** Conversation history *)

Module ConversationStorage.

(** [parseInt(s)] with no radix: decimal, or hexadecimal after a [0x] or
    [0X] prefix. [None] is [NaN]. Session ids are far below 2^53, where
    the result is exact. *)
Definition hexValue (c : N) : option Z :=
  if JSString.isDigit c then Some (Z.of_N (c - 48))
  else if ((97 <=? c) && (c <=? 102))%N then Some (Z.of_N (c - 87))
  else if ((65 <=? c) && (c <=? 70))%N then Some (Z.of_N (c - 55))
  else None.

Fixpoint hexDigits (s : jsstring) (acc : option Z) : option Z :=
  match s with
  | [] => acc
  | c :: rest =>
      match hexValue c with
      | Some d =>
          hexDigits rest (Some (match acc with
                                | Some a => 16 * a + d
                                | None => d
                                end))
      | None => acc
      end
  end.

Definition unsignedInt (s : jsstring) : option Z :=
  match s with
  | 48%N :: x :: rest =>
      if ((x =? 120) || (x =? 88))%N then hexDigits rest None
      else JSString.digits s None
  | _ => JSString.digits s None
  end.

Definition parseInt (s : jsstring) : option Z :=
  match JSString.trimStart s with
  | [] => None
  | c :: rest =>
      if (c =? 45)%N then option_map Z.opp (unsignedInt rest)
      else if (c =? 43)%N then unsignedInt rest
      else unsignedInt (c :: rest)
  end.

Section Store.

(** The conversation history is carried along unread. *)
Variable History : Type.

(** The records of the [sessions] object store. *)
Record Session := mkSession {
  sessionId : jsstring;
  timestamp : option Z;
  conversationHistory : History;
  lastUpdated : Z
}.

(** The object store, keyed by [sessionId]: [put] replaces the record
    with the same key or adds one, [get] finds the record with a key.
    The database is open and its requests succeed; a failed request
    rejects the promise and is not part of this model. *)
Fixpoint put (record : Session) (store : list Session) : list Session :=
  match store with
  | [] => [record]
  | r :: rest =>
      if jsstring_eqb (sessionId r) (sessionId record) then record :: rest
      else r :: put record rest
  end.

Fixpoint get (id : jsstring) (store : list Session) : option Session :=
  match store with
  | [] => None
  | r :: rest =>
      if jsstring_eqb (sessionId r) id then Some r else get id rest
  end.

(** [saveConversationSession(sessionId, conversationHistory)]. *)
Definition saveConversationSession (id : jsstring) (history : History)
    (now : Z) (store : list Session) : list Session :=
  let sessionData := mkSession id (parseInt id) history now in
  put sessionData store.

(** [getConversationSession(sessionId)]; [None] is [undefined]. *)
Definition getConversationSession (id : jsstring) (store : list Session)
    : option Session :=
  get id store.

(** [Array.prototype.sort] with a comparator: a stable sort, here by
    insertion. [compare a b] is negative when [a] goes first. *)
Fixpoint insert (compare : Session -> Session -> Z) (x : Session)
    (sorted : list Session) : list Session :=
  match sorted with
  | [] => [x]
  | y :: rest =>
      if compare x y <=? 0 then x :: y :: rest
      else y :: insert compare x rest
  end.

Definition arraySort (compare : Session -> Session -> Z)
    (l : list Session) : list Session :=
  fold_right (insert compare) [] l.

(** Order of string keys: by code units, left to right. *)
Fixpoint keyCompare (a b : jsstring) : Z :=
  match a, b with
  | [], [] => 0
  | [], _ :: _ => -1
  | _ :: _, [] => 1
  | x :: a', y :: b' =>
      if (x <? y)%N then -1
      else if (y <? x)%N then 1
      else keyCompare a' b'
  end.

Definition timeOf (r : Session) : Z :=
  match timestamp r with
  | Some n => n
  | None => 0
  end.

(** [index.getAll()] on the [timestamp] index: the records whose
    timestamp is a number ([NaN] is no key, such a record is not in the
    index), by timestamp and then by primary key. *)
Definition indexGetAll (store : list Session) : list Session :=
  arraySort (fun a b =>
               if timeOf a =? timeOf b
               then keyCompare (sessionId a) (sessionId b)
               else timeOf a - timeOf b)
            (filter (fun r => match timestamp r with
                              | Some _ => true
                              | None => false
                              end) store).

(** [getAllConversationSessions()]: the index content sorted with
    [(a, b) => b.timestamp - a.timestamp]. *)
Definition getAllConversationSessions (store : list Session)
    : list Session :=
  arraySort (fun a b => timeOf b - timeOf a) (indexGetAll store).

End Store.

Arguments mkSession {History}.
Arguments sessionId {History}.
Arguments timestamp {History}.
Arguments conversationHistory {History}.
Arguments lastUpdated {History}.
Arguments put {History}.
Arguments get {History}.
Arguments saveConversationSession {History}.
Arguments getConversationSession {History}.
Arguments insert {History}.
Arguments arraySort {History}.
Arguments timeOf {History}.
Arguments indexGetAll {History}.
Arguments getAllConversationSessions {History}.

End ConversationStorage.

(** * Notions used to state the properties *)

(** The sum of the counts of a list of events, as a right fold. *)
Definition totalCount (l : list TokenTracker.TokenEvent) : Z :=
  fold_right (fun e acc => TokenTracker.count e + acc) 0 l.

(** A configuration with throttling on, 1000 tokens per minute and a
    throttle point of 75 percent. *)
Definition throttleAt750 : Storage :=
  fun key =>
    if String.eqb key "throttleTokens" then Some (lit "true")
    else if String.eqb key "maxTokensPerMin" then Some (lit "1000")
    else if String.eqb key "throttleAtPercent" then Some (lit "75")
    else None.

(** Whether pixel [p] of two flat RGBA arrays differs by more than 10 in
    its red, green or blue byte. *)
Definition channelDiffers (cur last : list Z) (k : nat) : bool :=
  10 <? Z.abs (nth k cur 0 - nth k last 0).

Definition pixelDiffers (cur last : list Z) (p : nat) : bool :=
  channelDiffers cur last (4 * p) ||
  channelDiffers cur last (4 * p + 1) ||
  channelDiffers cur last (4 * p + 2).

(** The number of pixels among the first [n] that differ. *)
Definition differingPixels (n : nat) (cur last : list Z) : Z :=
  Z.of_nat (List.length (filter (pixelDiffers cur last) (seq 0 n))).

(** A 160 x 90 RGBA frame whose first [k] pixels are grey level [w] and
    whose other pixels are grey level [v]. *)
Definition patchedFrame (k : nat) (w v : Z) : list Z :=
  concat (repeat [w; w; w; 255] k
          ++ repeat [v; v; v; 255] (Z.to_nat 14400 - k)).

Definition solidFrame (v : Z) : list Z := patchedFrame 0 v v.

(** An environment in which the video is ready, the frame encodes to a
    valid payload, and every clock reading is [now]. *)
Definition readyEnv (ls : Storage) (frame : list Z) (now : Z)
    (sendOutcome : IpcOutcome) : Renderer.Env :=
  Renderer.mkEnv ls now 1920 1080 4 frame now true
                 (Some (repeat 65%N 100)) sendOutcome now now now.

Definition noStorage : Storage := fun _ => None.

Definition okResult : IpcOutcome := Resolved (mkResult true None).

Definition failedResult : IpcOutcome :=
  Resolved (mkResult false (Some (lit "No active session"))).

(** The module state once [startCapture] has obtained a stream. *)
Definition started : Renderer.t := Renderer.startCapture true Renderer.init.

(** The tracker that reaches the send: untouched for a manual capture,
    possibly purged by the throttle test for an automated one. *)
Definition trackerBeforeSend (isManual : bool) (env : Renderer.Env)
    (r : Renderer.t) : TokenTracker.t :=
  if isManual then Renderer.tokenTracker r
  else fst (Throttle.shouldThrottle (Renderer.localStorage env)
                                    (Renderer.nowThrottle env)
                                    (Renderer.tokenTracker r)).

(** A text that is missing, empty, or made of white space only. *)
Definition blank (text : option jsstring) : Prop :=
  match text with
  | None => True
  | Some txt => Forall (fun c => JSString.isWhiteSpace c = true) txt
  end.

(** A sink that resolves every request. *)
Definition resolves (sink : nat -> IpcOutcome) : Prop :=
  forall k, exists result, sink k = Resolved result.

(** A stored setting whose first visible character is neither a digit
    nor a sign: [parseInt] finds no number in it. *)
Definition unparsable (v : jsstring) : Prop :=
  exists (c : N) (rest : jsstring),
    JSString.trimStart v = c :: rest /\
    JSString.isDigit c = false /\ c <> 45%N /\ c <> 43%N.

(** The 6-bit group a base64 character stands for. *)
Definition base64Index (c : N) : Z :=
  let z := Z.of_N c in
  if (65 <=? z) && (z <=? 90) then z - 65
  else if (97 <=? z) && (z <=? 122) then z - 71
  else if (48 <=? z) && (z <=? 57) then z + 4
  else if z =? 43 then 62
  else 63.

(** A base64 decoder: four characters give three bytes, a group padded with
    one or two [=] gives two bytes or one. *)
Fixpoint base64Decode (s : jsstring) : list Z :=
  match s with
  | c1 :: c2 :: c3 :: c4 :: rest =>
      let i1 := base64Index c1 in
      let i2 := base64Index c2 in
      let i3 := base64Index c3 in
      let i4 := base64Index c4 in
      if (c3 =? 61)%N then [i1 * 4 + i2 / 16]
      else if (c4 =? 61)%N then [i1 * 4 + i2 / 16; i2 mod 16 * 16 + i3 / 4]
      else i1 * 4 + i2 / 16 :: i2 mod 16 * 16 + i3 / 4
           :: i3 mod 4 * 64 + i4 :: base64Decode rest
  | _ => []
  end.

(** Reading a little-endian byte buffer back as signed 16-bit
    integers. *)
Fixpoint int16OfBuffer (bytes : list Z) : list Z :=
  match bytes with
  | lo :: hi :: rest =>
      let u := lo + 256 * hi in
      (if u <? 32768 then u else u - 65536) :: int16OfBuffer rest
  | _ => []
  end.

(** The order of the session list: no older session before a newer
    one. *)
Definition newerFirst {History : Type}
    (a b : ConversationStorage.Session History) : Prop :=
  ConversationStorage.timeOf b <= ConversationStorage.timeOf a.

(** * Properties *)

(** ** Image token cost *)

Section ImageTokens.
Import TokenTracker.

(** [Qceiling (a # 768)] is the least integer [n] with [a <= 768 * n]. *)
Lemma tiles_ceiling (a : Z) :
  768 * (Qceiling (a # 768) - 1) < a <= 768 * Qceiling (a # 768).
Proof.
  unfold Qceiling, Qfloor. cbn [Qopp Qnum Qden].
  pose proof (Z.div_mod (- a) 768 ltac:(lia)) as Hdm.
  pose proof (Z.mod_pos_bound (- a) 768 ltac:(lia)) as Hb.
  lia.
Qed.

(** C4. [calculateImageTokens (w, h)] is 258 when both dimensions are at
    most 384; otherwise it is [tx * ty * 258] where [tx] and [ty] are
    the ceilings of [w / 768] and [h / 768] (the least integers with
    [w <= 768 * tx] and [h <= 768 * ty]); in particular
    (800, 800) gives 1032, (1, 1) gives 258 and (768, 1536) gives 516. *)
Theorem calculateImageTokens_spec :
  (forall w h : Z,
      w <= 384 -> h <= 384 -> calculateImageTokens w h = 258) /\
  (forall w h : Z,
      ~ (w <= 384 /\ h <= 384) ->
      exists tx ty : Z,
        768 * (tx - 1) < w <= 768 * tx /\
        768 * (ty - 1) < h <= 768 * ty /\
        calculateImageTokens w h = tx * ty * 258) /\
  calculateImageTokens 800 800 = 1032 /\
  calculateImageTokens 1 1 = 258 /\
  calculateImageTokens 768 1536 = 516.
Proof.
  split; [| split; [| repeat split; reflexivity]].
  - intros w h Hw Hh. unfold calculateImageTokens.
    apply Z.leb_le in Hw. apply Z.leb_le in Hh.
    rewrite Hw, Hh. reflexivity.
  - intros w h Hbig. unfold calculateImageTokens.
    destruct ((w <=? 384) && (h <=? 384)) eqn:E.
    + apply andb_true_iff in E. destruct E as [Ew Eh].
      apply Z.leb_le in Ew. apply Z.leb_le in Eh. tauto.
    + exists (Qceiling (w # 768)), (Qceiling (h # 768)).
      split; [apply tiles_ceiling | split; [apply tiles_ceiling |]].
      reflexivity.
Qed.

End ImageTokens.

(** ** The sliding one-minute window *)

Section SlidingWindow.
Import TokenTracker.

Lemma fold_left_count (l : list TokenEvent) (a : Z) :
  fold_left (fun total token => total + count token) l a
  = a + totalCount l.
Proof.
  revert a. induction l as [| e l IH]; intros a;
    cbn [fold_left totalCount fold_right].
  - lia.
  - rewrite IH. fold (totalCount l). lia.
Qed.

Lemma sumCounts_total (l : list TokenEvent) : sumCounts l = totalCount l.
Proof. unfold sumCounts. rewrite fold_left_count. lia. Qed.

(** The events the purge keeps are those less than 60 000 ms old. *)
Lemma cleanOldTokens_In (now : Z) (tr : t) (e : TokenEvent) :
  In e (tokens (cleanOldTokens now tr))
  <-> In e (tokens tr) /\ now - timestamp e < 60000.
Proof.
  unfold cleanOldTokens. cbn [tokens]. rewrite filter_In, Z.ltb_lt.
  intuition lia.
Qed.

(** C5. Querying at time [now]: an event older than 60 s is purged from
    the tracker; the events that stay are exactly those less than
    60 000 ms old; the total returned is the sum of the counts of those
    events. One event of 500 tokens added at t = 0 gives 500 at
    t = 59 s and 0 at t = 61 s. *)
Theorem getTokensInLastMinute_window :
  (forall (now : Z) (tr : t) (e : TokenEvent),
      60000 < now - timestamp e ->
      ~ In e (tokens (fst (getTokensInLastMinute now tr)))) /\
  (forall (now : Z) (tr : t) (e : TokenEvent),
      In e (tokens (fst (getTokensInLastMinute now tr)))
      <-> In e (tokens tr) /\ now - timestamp e < 60000) /\
  (forall (now : Z) (tr : t),
      snd (getTokensInLastMinute now tr)
      = totalCount
          (filter (fun e => now - timestamp e <? 60000) (tokens tr))) /\
  (let tr := addTokens 0 0 500 image init in
   snd (getTokensInLastMinute 59000 tr) = 500 /\
   snd (getTokensInLastMinute 61000 tr) = 0).
Proof.
  split; [| split; [| split]].
  - intros now tr e Hold Hin. cbn [getTokensInLastMinute fst] in Hin.
    apply cleanOldTokens_In in Hin. lia.
  - intros now tr e. cbn [getTokensInLastMinute fst].
    apply cleanOldTokens_In.
  - intros now tr. cbn [getTokensInLastMinute snd].
    rewrite sumCounts_total. unfold cleanOldTokens. cbn [tokens].
    f_equal. apply filter_ext. intros e.
    destruct (Z.ltb_spec (now - 60 * 1000) (timestamp e));
      destruct (Z.ltb_spec (now - timestamp e) 60000);
      try reflexivity; lia.
  - cbn. split; reflexivity.
Qed.

End SlidingWindow.

(** ** Audio token accrual *)

Section AudioAccrual.
Import TokenTracker.

(** The token count of a tick is the floor of
    [(now - start) * 32 / 1000]. *)
Lemma audioTokensFor_floor (start now : Z) :
  audioTokensFor start now = (now - start) * 32 / 1000.
Proof.
  unfold audioTokensFor, Qfloor, Qmult. cbn [Qnum Qden inject_Z].
  rewrite Pos.mul_1_r. reflexivity.
Qed.

(** C3, as stated, fails: a tick 10 ms after the window start (a call
    after the first) emits nothing and leaves the window start where
    it was, instead of resetting it to the current time. *)
Lemma trackAudioTokens_reset_regardless_fails :
  exists (start now nowPush nowClean : Z) (evs : list TokenEvent),
    start <> 0 /\
    audioTokensFor start now = 0 /\
    trackAudioTokens now nowPush nowClean (mk evs (Some start))
    = mk evs (Some start) /\
    audioStartTime
      (trackAudioTokens now nowPush nowClean (mk evs (Some start)))
    <> Some now.
Proof.
  exists 1000, 1010, 1010, 1010, [].
  repeat split; try reflexivity; [lia | cbn; intros H; discriminate H].
Qed.

(** C3, amended. On a call after the first (the window start is set),
    with [n] the floor of the elapsed seconds times 32: when [n > 0] an
    audio event of count [n] is appended, the purge of [addTokens] runs,
    and the window start becomes the current time, dropping the
    fraction; when [n <= 0] nothing is emitted and the tracker, window
    start included, is left as it was. *)
Theorem trackAudioTokens_spec
    (start now nowPush nowClean : Z) (evs : list TokenEvent) :
  start <> 0 ->
  let tr := mk evs (Some start) in
  let n := (now - start) * 32 / 1000 in
  let tr' := trackAudioTokens now nowPush nowClean tr in
  (0 < n ->
     tokens tr'
     = filter (fun e => nowClean - 60000 <? timestamp e)
              (evs ++ [mkTokenEvent nowPush n audio]) /\
     audioStartTime tr' = Some now) /\
  (n <= 0 -> tr' = tr).
Proof.
  intros Hstart tr n tr'. subst tr tr'.
  unfold trackAudioTokens. cbn [audioStartTime truthy].
  apply Z.eqb_neq in Hstart. rewrite Hstart. cbn [negb].
  rewrite audioTokensFor_floor. fold n. split; intros Hn.
  - apply Z.ltb_lt in Hn. rewrite Hn. cbn. split; reflexivity.
  - apply Z.ltb_ge in Hn. rewrite Hn. reflexivity.
Qed.

(** A tick two seconds after the window start: 64 tokens, window start
    moved to the tick. *)
Lemma trackAudioTokens_spec_witness :
  let tr' := trackAudioTokens 3000 3001 3002 (mk [] (Some 1000)) in
  (tokens tr' = [mkTokenEvent 3001 64 audio] /\
   audioStartTime tr' = Some 3000).
Proof.
  refine (proj1 (trackAudioTokens_spec 1000 3000 3001 3002 [] _) _).
  - lia.
  - reflexivity.
Defined.

(** The first call only records the window start. *)
Lemma trackAudioTokens_first (now nowPush nowClean : Z)
    (evs : list TokenEvent) :
  trackAudioTokens now nowPush nowClean (mk evs None) = mk evs (Some now).
Proof. reflexivity. Qed.

End AudioAccrual.

(** ** Throttling *)

Section Throttling.
Import TokenTracker Throttle.

Lemma jsstring_eqb_eq (a b : jsstring) : jsstring_eqb a b = true <-> a = b.
Proof.
  unfold jsstring_eqb. destruct (list_eq_dec N.eq_dec a b); split;
    intros; congruence.
Qed.

Lemma throttleEnabled_iff (ls : Storage) :
  throttleEnabled ls = true <-> ls "throttleTokens"%string = Some (lit "true").
Proof.
  unfold throttleEnabled. destruct (ls "throttleTokens"%string) as [v |].
  - rewrite jsstring_eqb_eq. split; intros; congruence.
  - split; intros; discriminate.
Qed.

(** C6. When the stored flag is not ['true'], [shouldThrottle] returns
    false and leaves the tracker alone, whatever it holds. When it is,
    and the two settings parse to [m] and [p], it returns true exactly
    when the tokens of the last minute reach the floor of
    [m * p / 100]. With 1000 tokens per minute, 75 percent and 800
    tokens accumulated it returns true. *)
Theorem shouldThrottle_spec :
  (forall (ls : Storage) (now : Z) (tr : t),
      ls "throttleTokens"%string <> Some (lit "true") ->
      shouldThrottle ls now tr = (tr, false)) /\
  (forall (ls : Storage) (now : Z) (tr : t) (m p : Z),
      ls "throttleTokens"%string = Some (lit "true") ->
      maxTokensPerMin ls = Some m ->
      throttleAtPercent ls = Some p ->
      exists threshold : Z,
        100 * threshold <= m * p < 100 * (threshold + 1) /\
        (snd (shouldThrottle ls now tr) = true
         <-> threshold <= snd (getTokensInLastMinute now tr))) /\
  (maxTokensPerMin throttleAt750 = Some 1000 /\
   throttleAtPercent throttleAt750 = Some 75 /\
   let tr := addTokens 0 0 800 image init in
   snd (getTokensInLastMinute 1000 tr) = 800 /\
   snd (shouldThrottle throttleAt750 1000 tr) = true).
Proof.
  split; [| split].
  - intros ls now tr Hoff. unfold shouldThrottle.
    destruct (throttleEnabled ls) eqn:E; [| reflexivity].
    apply throttleEnabled_iff in E. contradiction.
  - intros ls now tr m p Hon Hm Hp.
    apply throttleEnabled_iff in Hon.
    exists (m * p / 100). split.
    + pose proof (Z.div_mod (m * p) 100 ltac:(lia)).
      pose proof (Z.mod_pos_bound (m * p) 100 ltac:(lia)). lia.
    + unfold shouldThrottle, throttleThreshold.
      rewrite Hon, Hm, Hp. cbn [negb getTokensInLastMinute snd].
      unfold Qfloor. cbn [Qnum Qden]. apply Z.leb_le.
  - vm_compute. repeat split; reflexivity.
Qed.

End Throttling.

(** ** The change test *)

Section ChangeTest.
Import FrameDiff.

Lemma filter_seq_shift (f : nat -> bool) (s n : nat) :
  List.length (filter f (seq (S s) n))
  = List.length (filter (fun p => f (S p)) (seq s n)).
Proof.
  revert s. induction n as [| n IH]; intros s; cbn [seq filter].
  - reflexivity.
  - destruct (f (S s)); cbn [List.length]; rewrite IH; reflexivity.
Qed.

Lemma absDiff_nth (cur last : list Z) (k : nat) :
  (k < List.length cur)%nat -> (k < List.length last)%nat ->
  noticeable (absDiff cur last k) = channelDiffers cur last k.
Proof.
  intros Hc Hl. unfold absDiff, channelDiffers.
  destruct (nth_error cur k) as [x |] eqn:Ex;
    [| apply nth_error_None in Ex; lia].
  destruct (nth_error last k) as [y |] eqn:Ey;
    [| apply nth_error_None in Ey; lia].
  rewrite (nth_error_nth _ _ 0 Ex), (nth_error_nth _ _ 0 Ey). reflexivity.
Qed.

(** The loop counts the differing pixels of two arrays of [4 * n]
    bytes. *)
Lemma diffLoop_counts (n : nat) :
  forall (fuel : nat) (cur last : list Z) (acc : Z),
    List.length cur = (4 * n)%nat -> List.length last = (4 * n)%nat ->
    (n <= fuel)%nat ->
    diffLoop fuel cur last acc = acc + differingPixels n cur last.
Proof.
  unfold differingPixels.
  induction n as [| n IH]; intros fuel cur last acc Hc Hl Hf.
  - destruct cur; [| discriminate Hc].
    destruct fuel; cbn; lia.
  - destruct fuel as [| fuel]; [lia |].
    destruct cur as [| r [| g [| b [| a cur]]]]; try (cbn in Hc; lia).
    destruct last as [| r' [| g' [| b' [| a' last]]]]; try (cbn in Hl; lia).
    cbn [diffLoop skipn].
    rewrite IH by (cbn in Hc, Hl |- *; lia).
    assert (Hhead :
      pixelChanged (r :: g :: b :: a :: cur) (r' :: g' :: b' :: a' :: last)
      = pixelDiffers (r :: g :: b :: a :: cur)
                     (r' :: g' :: b' :: a' :: last) 0).
    { unfold pixelChanged, pixelDiffers.
      rewrite !absDiff_nth by (cbn; lia). reflexivity. }
    assert (Htail : forall p,
      pixelDiffers (r :: g :: b :: a :: cur)
                   (r' :: g' :: b' :: a' :: last) (S p)
      = pixelDiffers cur last p).
    { intros p. unfold pixelDiffers, channelDiffers.
      replace (4 * S p)%nat with (S (S (S (S (4 * p))))) by lia.
      reflexivity. }
    cbn [seq filter]. rewrite Hhead.
    destruct (pixelDiffers _ _ 0); cbn [List.length];
      rewrite filter_seq_shift, (filter_ext _ _ Htail); lia.
Qed.

Lemma changedPixels_counts (cur last : list Z) :
  Z.of_nat (List.length cur) = 57600 ->
  Z.of_nat (List.length last) = 57600 ->
  changedPixels cur last = differingPixels (Z.to_nat 14400) cur last.
Proof.
  intros Hc Hl. unfold changedPixels.
  rewrite (diffLoop_counts (Z.to_nat 14400)) by lia. lia.
Qed.

(** With a baseline in place the test passes exactly when at least 5 % of
    the pixels were counted: 720 of 14 400. *)
Lemma shouldTransmit_threshold (cur last : list Z) :
  shouldTransmit (Some last) cur = true <-> 720 <= changedPixels cur last.
Proof.
  unfold shouldTransmit, changeRatio, SCREEN_CHANGE_THRESHOLD, totalPixels.
  destruct (Qlt_le_dec _ _) as [Hlt | Hle]; split; intros H;
    try reflexivity; try discriminate H.
  - exfalso. revert Hlt. unfold Qlt, Qdiv, Qmult, Qinv, inject_Z.
    cbn. lia.
  - revert Hle. unfold Qle, Qdiv, Qmult, Qinv, inject_Z. cbn. lia.
Qed.

End ChangeTest.

(** ** The capture step *)

Section CaptureStep.
Import TokenTracker Renderer.

(** [shouldThrottle] hands back the tracker as it was or purged. *)
Lemma shouldThrottle_tracker (ls : Storage) (now : Z) (tr : TokenTracker.t) :
  fst (Throttle.shouldThrottle ls now tr) = tr \/
  fst (Throttle.shouldThrottle ls now tr) = cleanOldTokens now tr.
Proof.
  unfold Throttle.shouldThrottle, getTokensInLastMinute.
  destruct (negb (Throttle.throttleEnabled ls)); [left; reflexivity |].
  destruct (Throttle.throttleThreshold ls); right; reflexivity.
Qed.

Lemma trackerBeforeSend_cases (isManual : bool) (env : Env)
    (r : Renderer.t) :
  trackerBeforeSend isManual env r = tokenTracker r \/
  trackerBeforeSend isManual env r
  = cleanOldTokens (nowThrottle env) (tokenTracker r).
Proof.
  unfold trackerBeforeSend. destruct isManual; [left; reflexivity |].
  apply shouldThrottle_tracker.
Qed.

(** The send stage either reports [Sent] after a result with
    [success = true], with the tokens of the canvas added and the send
    time stored, or leaves the module state as it was. *)
Lemma encodeAndSend_cases (env : Env) (r : Renderer.t) :
  let s := encodeAndSend env r in
  (exists (res : SendResult) (data : jsstring) (w h : Z),
      sendOutcome env = Resolved res /\ success res = true /\
      calls s = [SendImageContent data] /\
      offscreenCanvas r = Some (w, h) /\
      outcome s = Sent (calculateImageTokens w h) /\
      after s
      = mk (addTokens (nowPush env) (nowClean env)
                      (calculateImageTokens w h) image (tokenTracker r))
           (mediaStream r) (offscreenCanvas r) (lastSentDiffData r)
           (nowSent env))
  \/
  (after s = r /\
   (outcome s = BlobFailed \/ outcome s = InvalidBase64 \/
    outcome s = SendRejected \/ outcome s = SendFailed \/
    outcome s = CanvasCleared)).
Proof.
  unfold encodeAndSend. cbv zeta.
  destruct (negb (blob env)); [right; cbn; tauto |].
  destruct (base64data env) as [data |]; [| right; cbn; tauto].
  destruct (invalidBase64 (Some data)); [right; cbn; tauto |].
  destruct (sendOutcome env) as [res | msg]; [| right; cbn; tauto].
  destruct (success res) eqn:Hs; [| right; cbn; tauto].
  destruct (offscreenCanvas r) as [[w h] |] eqn:Hc; [| right; cbn; tauto].
  left. exists res, data, w, h. cbn.
  repeat split; first [assumption | reflexivity].
Qed.

(** The change detection returns early only past a baseline,
    and is the only place that writes the baseline. *)
Lemma changeDetection_cases (env : Env) (r : Renderer.t) :
  match changeDetection env r with
  | inl o =>
      (o = BelowThreshold \/ o = MinIntervalNotMet) /\
      exists last, lastSentDiffData r = Some last
  | inr r' =>
      tokenTracker r' = tokenTracker r /\
      mediaStream r' = mediaStream r /\
      offscreenCanvas r' = offscreenCanvas r /\
      lastScreenshotSentTime r' = lastScreenshotSentTime r /\
      (r' = r /\ lastSentDiffData r = None \/
       lastSentDiffData r' = Some (diffImageData env) /\
       exists last, lastSentDiffData r = Some last)
  end.
Proof.
  unfold changeDetection. destruct (lastSentDiffData r) as [last |] eqn:Hl.
  - destruct (Qlt_le_dec _ _); [split; [tauto | eauto] |].
    destruct (_ <? _); [split; [tauto | eauto] |].
    cbn. repeat split; try reflexivity. right. eauto.
  - repeat split; try reflexivity. left. split; reflexivity.
Qed.

(** The early return on too small a change is the change test of
    [FrameDiff] failing. *)
Lemma changeDetection_below_threshold (env : Env) (r : Renderer.t) :
  changeDetection env r = inl BelowThreshold
  <-> FrameDiff.shouldTransmit (lastSentDiffData r) (diffImageData env)
      = false.
Proof.
  unfold changeDetection, FrameDiff.shouldTransmit.
  destruct (lastSentDiffData r) as [last |].
  - destruct (Qlt_le_dec _ _); [tauto |].
    destruct (_ <? _); split; intros H; discriminate H.
  - split; intros H; discriminate H.
Qed.

(** Closes the routine parts of a case of the capture step. *)
Ltac settle :=
  repeat split; intros;
  repeat match goal with
         | H : Sent _ = Sent _ |- _ => inversion H; clear H; subst
         | H : forall n, Sent _ <> Sent n |- _ =>
             exfalso; eapply H; reflexivity
         end;
  try solve [ tauto | discriminate | eauto
            | intuition (try discriminate; try congruence; eauto) ].

(** What one call of [captureScreenshot] does to the baseline and to the
    token tracker, and what a [Sent] outcome implies. *)
Lemma captureScreenshot_cases (isManual : bool) (env : Env)
    (r : Renderer.t) :
  let s := captureScreenshot isManual env r in
  (lastSentDiffData (after s) = lastSentDiffData r \/
   isManual = false /\
   lastSentDiffData (after s) = Some (diffImageData env) /\
   exists last, lastSentDiffData r = Some last) /\
  (outcome s = BelowThreshold \/ outcome s = MinIntervalNotMet ->
   isManual = false /\ exists last, lastSentDiffData r = Some last) /\
  ((forall n, outcome s <> Sent n) ->
   tokenTracker (after s) = tokenTracker r \/
   tokenTracker (after s)
   = cleanOldTokens (nowThrottle env) (tokenTracker r)) /\
  (forall n, outcome s = Sent n ->
   exists (res : SendResult) (data : jsstring) (w h : Z),
     sendOutcome env = Resolved res /\ success res = true /\
     calls s = [SendImageContent data] /\
     offscreenCanvas (after s) = Some (w, h) /\
     n = calculateImageTokens w h /\
     tokenTracker (after s)
     = addTokens (nowPush env) (nowClean env) n image
                 (trackerBeforeSend isManual env r)).
Proof.
  unfold captureScreenshot, trackerBeforeSend. cbv zeta.
  destruct (negb (mediaStream r)); [cbn; settle |].
  destruct isManual.
  - cbn [negb]. destruct (readyState env <? 2); [cbn; settle |].
    match goal with
    | |- context [encodeAndSend env ?r2] =>
        pose proof (encodeAndSend_cases env r2) as Hsend;
          cbv zeta in Hsend; destruct (encodeAndSend env r2) as [a o c]
    end.
    cbn [after outcome calls] in *.
    destruct Hsend as [(res & data & w & h & H1 & H2 & H3 & H4 & H5 & H6)
                      | [H1 H2]]; subst; cbn in *; settle.
    exists res, data, w, h. tauto.
  - pose proof (shouldThrottle_tracker (localStorage env) (nowThrottle env)
                                       (tokenTracker r)) as Htr.
    destruct (Throttle.shouldThrottle _ _ _) as [tr throttled].
    cbn [fst] in *.
    destruct throttled; [cbn; settle |].
    destruct (readyState env <? 2); [cbn; settle |].
    match goal with
    | |- context [changeDetection env ?r2] =>
        pose proof (changeDetection_cases env r2) as Hdet;
          destruct (changeDetection env r2) as [o | r3]
    end.
    { cbn in *. destruct Hdet as [Ho [last Hlast]]. settle. }
    pose proof (encodeAndSend_cases env r3) as Hsend.
    cbv zeta in Hsend. destruct (encodeAndSend env r3) as [a o c].
    cbn [after outcome calls tokenTracker mediaStream offscreenCanvas
         lastSentDiffData lastScreenshotSentTime] in *.
    destruct Hdet as (G1 & G2 & G3 & G4 & G5).
    destruct Hsend as [(res & data & w & h & H1 & H2 & H3 & H4 & H5 & H6)
                      | [H1 H2]]; subst; cbn in *;
      destruct G5 as [[-> Hn] | [Hs [last Hl]]]; cbn in *; settle.
    all: exists res, data, w, h; rewrite <- ?G1, <- ?G3; tauto.
Qed.

(** C9. Within one call of [captureScreenshot]: when the send result
    reports failure the call does not end in [Sent], and a call that does
    not end in [Sent] leaves the token tracker as it was or as the purge
    of the throttle test left it, so every event in it was there before;
    a call ends in [Sent n] only after [send-image-content] came back
    with [success = true], and then [n] is [calculateImageTokens] of the
    canvas width and height and is what [addTokens] received. A failed
    send of a 1920 x 1080 frame leaves the tracker empty, a successful one
    adds 1548 tokens. *)
Theorem tokens_added_only_on_success :
  (forall (isManual : bool) (env : Env) (r : Renderer.t),
      (forall res, sendOutcome env = Resolved res -> success res = false) ->
      forall n, outcome (captureScreenshot isManual env r) <> Sent n) /\
  (forall (isManual : bool) (env : Env) (r : Renderer.t),
      let s := captureScreenshot isManual env r in
      (forall n, outcome s <> Sent n) ->
      (tokenTracker (after s) = tokenTracker r \/
       tokenTracker (after s)
       = cleanOldTokens (nowThrottle env) (tokenTracker r)) /\
      (forall e, In e (tokens (tokenTracker (after s))) ->
                 In e (tokens (tokenTracker r)))) /\
  (forall (isManual : bool) (env : Env) (r : Renderer.t) (n : Z),
      let s := captureScreenshot isManual env r in
      outcome s = Sent n ->
      exists (res : SendResult) (data : jsstring) (w h : Z),
        sendOutcome env = Resolved res /\ success res = true /\
        calls s = [SendImageContent data] /\
        offscreenCanvas (after s) = Some (w, h) /\
        n = calculateImageTokens w h /\
        tokenTracker (after s)
        = addTokens (nowPush env) (nowClean env) n image
                    (trackerBeforeSend isManual env r)) /\
  (let failed := captureScreenshot false
                   (readyEnv noStorage (solidFrame 0) 5000 failedResult)
                   started in
   outcome failed = SendFailed /\
   tokens (tokenTracker (after failed)) = []) /\
  (let ok := captureScreenshot false
               (readyEnv noStorage (solidFrame 0) 5000 okResult)
               started in
   outcome ok = Sent 1548 /\
   tokens (tokenTracker (after ok)) = [mkTokenEvent 5000 1548 image]).
Proof.
  split; [| split; [| split; [| split]]].
  - intros isManual env r Hfail n Hsent.
    destruct (captureScreenshot_cases isManual env r) as (_ & _ & _ & Hs).
    destruct (Hs n Hsent) as (res & data & w & h & Hres & Hok & _).
    specialize (Hfail res Hres). congruence.
  - intros isManual env r s Hnot.
    destruct (captureScreenshot_cases isManual env r) as (_ & _ & Hkeep & _).
    specialize (Hkeep Hnot). fold s in Hkeep. split; [exact Hkeep |].
    intros e He. destruct Hkeep as [Heq | Heq]; rewrite Heq in He.
    + exact He.
    + apply cleanOldTokens_In in He. tauto.
  - intros isManual env r n s Hsent.
    destruct (captureScreenshot_cases isManual env r) as (_ & _ & _ & Hs).
    exact (Hs n Hsent).
  - vm_compute. split; reflexivity.
  - vm_compute. split; reflexivity.
Qed.

(** One call writes the baseline only when a baseline is already there. *)
Lemma baseline_written_only_past_baseline (isManual : bool) (env : Env)
    (r : Renderer.t) :
  lastSentDiffData (after (captureScreenshot isManual env r))
  <> lastSentDiffData r ->
  exists last, lastSentDiffData r = Some last.
Proof.
  intros Hchanged.
  destruct (captureScreenshot_cases isManual env r) as (Hb & _).
  destruct Hb as [Hsame | (_ & _ & Hlast)]; [contradiction | exact Hlast].
Qed.

Lemma step_keeps_null (a : Action) (r : Renderer.t) :
  lastSentDiffData r = None ->
  lastSentDiffData (fst (step a r)) = None /\
  Forall (fun o => o <> BelowThreshold /\ o <> MinIntervalNotMet)
         (snd (step a r)).
Proof.
  intros Hnull. destruct a as [acquired | | isManual env | now np nc];
    cbn [step fst snd]; try (split; [exact Hnull | constructor]).
  destruct (captureScreenshot_cases isManual env r) as (Hb & Hdet & _).
  split.
  - destruct Hb as [Hsame | (_ & _ & last & Hlast)]; congruence.
  - constructor; [| constructor].
    split; intros Ho;
      (destruct Hdet as (_ & last & Hlast); [tauto | congruence]).
Qed.

(** C2. If [lastSentDiffData] is [null] (as it is at module load), then
    after any sequence of starts, stops, manual and automated captures
    and audio ticks it is still [null], and no capture of the sequence
    ended at the change-ratio test or at the minimum-send-interval
    test. *)
Theorem baseline_never_established (actions : list Action)
    (r : Renderer.t) :
  lastSentDiffData r = None ->
  lastSentDiffData (fst (run actions r)) = None /\
  Forall (fun o => o <> BelowThreshold /\ o <> MinIntervalNotMet)
         (snd (run actions r)).
Proof.
  revert r. induction actions as [| a rest IH]; intros r Hnull.
  - cbn. split; [exact Hnull | constructor].
  - cbn [run]. pose proof (step_keeps_null a r Hnull) as [H1 H2].
    destruct (step a r) as [r1 o1]. cbn [fst snd] in H1, H2.
    specialize (IH r1 H1). destruct (run rest r1) as [r2 o2].
    cbn [fst snd] in *. destruct IH as [H3 H4].
    split; [exact H3 | apply Forall_app; split; assumption].
Qed.

(** From module load: a start and two automated captures of the same
    frame. *)
Lemma baseline_never_established_witness :
  lastSentDiffData
    (fst (run [Start true;
               Capture false (readyEnv noStorage (solidFrame 0) 5000 okResult);
               Capture false (readyEnv noStorage (solidFrame 0) 10000 okResult)]
              Renderer.init)) = None /\
  Forall (fun o => o <> BelowThreshold /\ o <> MinIntervalNotMet)
    (snd (run [Start true;
               Capture false (readyEnv noStorage (solidFrame 0) 5000 okResult);
               Capture false (readyEnv noStorage (solidFrame 0) 10000 okResult)]
              Renderer.init)).
Proof.
  apply baseline_never_established. reflexivity.
Defined.

End CaptureStep.

(** ** The change test against a baseline, and the missing baseline *)

Section Baseline.
Import FrameDiff Renderer.

Lemma differingPixels_same (n : nat) (f : list Z) :
  differingPixels n f f = 0.
Proof.
  unfold differingPixels.
  assert (Hnone : forall l, filter (pixelDiffers f f) l = []).
  { induction l as [| p l IH]; [reflexivity |].
    cbn [filter]. unfold pixelDiffers at 1, channelDiffers.
    rewrite !Z.sub_diag. cbn. exact IH. }
  rewrite Hnone. reflexivity.
Qed.

(** The change test on two full frames (57 600 bytes each): no baseline
    lets the frame through; a frame equal to the baseline is held back;
    otherwise the frame goes through exactly when at least 5 % of the
    14 400 pixels differ from the baseline by more than 10 in some colour
    channel. Frames that differ in 10 %, 5 %, just under 5 % and 2 % of
    the pixels behave accordingly. *)
Lemma shouldTransmit_against_baseline :
  (forall cur : list Z, shouldTransmit None cur = true) /\
  (forall f : list Z,
      Z.of_nat (List.length f) = 57600 -> shouldTransmit (Some f) f = false) /\
  (forall cur last : list Z,
      Z.of_nat (List.length cur) = 57600 ->
      Z.of_nat (List.length last) = 57600 ->
      (shouldTransmit (Some last) cur = true
       <-> 5 * 14400 <= 100 * differingPixels (Z.to_nat 14400) cur last)) /\
  shouldTransmit (Some (solidFrame 0)) (patchedFrame 1440 200 0) = true /\
  shouldTransmit (Some (solidFrame 0)) (patchedFrame 720 200 0) = true /\
  shouldTransmit (Some (solidFrame 0)) (patchedFrame 719 200 0) = false /\
  shouldTransmit (Some (solidFrame 0)) (patchedFrame 288 200 0) = false.
Proof.
  split; [| split; [| split]].
  - reflexivity.
  - intros f Hf.
    destruct (shouldTransmit (Some f) f) eqn:E; [| reflexivity].
    apply shouldTransmit_threshold in E.
    rewrite (changedPixels_counts f f Hf Hf), differingPixels_same in E. lia.
  - intros cur last Hc Hl. rewrite shouldTransmit_threshold.
    rewrite (changedPixels_counts cur last Hc Hl). lia.
  - repeat split; vm_compute; reflexivity.
Qed.

(** C1, on the code: two automated captures of the same frame, five
    seconds apart, from the state a started session is in. The first is
    sent and leaves [lastSentDiffData] at [null]; the second, identical to
    the frame just transmitted, passes the change test and is sent as
    well, although the same frame compared with itself as baseline would
    be held back. *)
Theorem identical_frame_sent_again :
  let frame := solidFrame 128 in
  let first := captureScreenshot false
                 (readyEnv noStorage frame 5000 okResult) started in
  let second := captureScreenshot false
                  (readyEnv noStorage frame 10000 okResult) (after first) in
  outcome first = Sent 1548 /\
  lastSentDiffData (after first) = None /\
  shouldTransmit (lastSentDiffData (after first)) frame = true /\
  outcome second = Sent 1548 /\
  calls second = [SendImageContent (repeat 65%N 100)] /\
  shouldTransmit (Some frame) frame = false.
Proof.
  vm_compute. repeat split; reflexivity.
Qed.

End Baseline.

(** ** Text messages *)

Section TextMessages.
Import JSString.

Lemma trimStart_nil_iff (s : jsstring) :
  trimStart s = [] <-> Forall (fun c => isWhiteSpace c = true) s.
Proof.
  induction s as [| c s IH]; cbn [trimStart].
  - split; [constructor | reflexivity].
  - destruct (isWhiteSpace c) eqn:E.
    + rewrite IH. split; intros H.
      * constructor; assumption.
      * inversion H; assumption.
    + split; intros H; [discriminate H |].
      inversion H; congruence.
Qed.

(** What [trimStart] leaves is empty or starts with a visible
    character. *)
Lemma trimStart_all_space (s : jsstring) :
  Forall (fun c => isWhiteSpace c = true) (trimStart s) ->
  trimStart s = [].
Proof.
  induction s as [| c s IH]; cbn [trimStart]; [reflexivity |].
  destruct (isWhiteSpace c) eqn:E; [exact IH |].
  intros H. inversion H; congruence.
Qed.

Lemma trim_empty_iff (s : jsstring) :
  List.length (trim s) = 0%nat
  <-> Forall (fun c => isWhiteSpace c = true) s.
Proof.
  unfold trim, trimEnd. rewrite length_rev, length_zero_iff_nil.
  rewrite trimStart_nil_iff. split; intros H.
  - apply Forall_rev in H. rewrite rev_involutive in H.
    apply trimStart_all_space in H. apply trimStart_nil_iff. exact H.
  - apply trimStart_nil_iff in H. rewrite H. constructor.
Qed.

(** C10. A text that is missing, empty or all white space is answered
    with [{success: false, error: 'Empty message'}] and no request is
    made, whatever the collaborator would have said; any other text is
    sent in exactly one [send-text-message] request; so a request is made
    only for a text with a visible character. *)
Theorem sendTextMessage_rejects_blank :
  (forall (text : option jsstring) (ipc : IpcOutcome),
      blank text ->
      sendTextMessage text ipc
      = (mkResult false (Some (lit "Empty message")), [])) /\
  (forall (txt : jsstring) (ipc : IpcOutcome),
      ~ blank (Some txt) ->
      snd (sendTextMessage (Some txt) ipc) = [SendTextMessage txt]) /\
  (forall (text : option jsstring) (ipc : IpcOutcome),
      snd (sendTextMessage text ipc) <> [] -> ~ blank text) /\
  sendTextMessage (Some (lit "")) okResult
  = (mkResult false (Some (lit "Empty message")), []) /\
  sendTextMessage (Some [32; 9; 10; 160; 8195]%N) okResult
  = (mkResult false (Some (lit "Empty message")), []) /\
  sendTextMessage (Some (lit " hi ")) okResult
  = (mkResult true None, [SendTextMessage (lit " hi ")]).
Proof.
  assert (Hblank : forall text ipc, blank text ->
            sendTextMessage text ipc
            = (mkResult false (Some (lit "Empty message")), [])).
  { intros [txt |] ipc Hb; [| reflexivity].
    destruct txt as [| c txt]; [reflexivity |].
    unfold sendTextMessage. cbn in Hb. apply trim_empty_iff in Hb.
    rewrite Hb. reflexivity. }
  assert (Hvisible : forall txt ipc, ~ blank (Some txt) ->
            snd (sendTextMessage (Some txt) ipc) = [SendTextMessage txt]).
  { intros txt ipc Hnb. destruct txt as [| c txt].
    - exfalso. apply Hnb. constructor.
    - unfold sendTextMessage.
      destruct (List.length (trim (c :: txt)) =? 0)%nat eqn:E.
      + exfalso. apply Hnb. cbn. apply trim_empty_iff.
        apply Nat.eqb_eq. exact E.
      + destruct ipc; reflexivity. }
  split; [exact Hblank | split; [exact Hvisible | split]].
  - intros text ipc Hcalls Hb. rewrite (Hblank text ipc Hb) in Hcalls.
    apply Hcalls. reflexivity.
  - repeat split; reflexivity.
Qed.

End TextMessages.

(** ** Sample conversion *)

Section Samples.
Import SampleConverter.

(** Truncation stays between integer bounds of the quotient. *)
Lemma quot_between (a d lo hi : Z) :
  0 < d -> lo * d <= a <= hi * d -> lo <= Z.quot a d <= hi.
Proof.
  intros Hd [Hlo Hhi].
  destruct (Z.le_gt_cases 0 a) as [Ha | Ha].
  - rewrite Z.quot_div_nonneg by lia.
    pose proof (Z.div_mod a d ltac:(lia)).
    pose proof (Z.mod_pos_bound a d Hd). nia.
  - replace a with (- (- a)) by lia.
    rewrite Z.quot_opp_l by lia. rewrite Z.quot_div_nonneg by lia.
    pose proof (Z.div_mod (- a) d ltac:(lia)).
    pose proof (Z.mod_pos_bound (- a) d Hd). nia.
Qed.

Lemma wrap16_small (z : Z) : -32768 <= z <= 32767 -> wrap16 z = z.
Proof.
  intros Hz. unfold wrap16. rewrite Z.mod_small by lia. lia.
Qed.

Lemma Qle_bool_false (x y : Q) : Qle_bool x y = false <-> (y < x)%Q.
Proof.
  unfold Qle_bool, Qlt. apply Z.leb_gt.
Qed.

(** At or below -1 the sample is clamped to -1. *)
Lemma convertSample_low (q : Q) :
  (q <= -1)%Q -> convertSample (Finite q) = -32768.
Proof.
  intros Hq. unfold convertSample, Math_min, Math_max, one, minusOne, lt.
  assert (H1 : Qle_bool 1 q = false).
  { apply Qle_bool_false. eapply Qle_lt_trans; [exact Hq | reflexivity]. }
  rewrite H1. cbn [negb].
  assert (H2 : Qle_bool q (-1) = true) by (apply Qle_bool_iff; exact Hq).
  rewrite H2. reflexivity.
Qed.

(** At or above 1 the sample is clamped to 1. *)
Lemma convertSample_high (q : Q) :
  (1 <= q)%Q -> convertSample (Finite q) = 32767.
Proof.
  intros Hq. unfold convertSample, Math_min, Math_max, one, minusOne, lt.
  assert (H1 : Qle_bool 1 q = true) by (apply Qle_bool_iff; exact Hq).
  rewrite H1. reflexivity.
Qed.

(** Strictly inside the range the sample is kept. *)
Lemma clamp_inside (q : Q) :
  (-1 < q)%Q -> (q < 1)%Q ->
  Math_max minusOne (Math_min one (Finite q)) = Finite q.
Proof.
  intros Hlo Hhi. unfold Math_min, Math_max, one, minusOne, lt.
  apply Qle_bool_false in Hhi. rewrite Hhi. cbn [negb].
  apply Qle_bool_false in Hlo. rewrite Hlo. reflexivity.
Qed.

Lemma convertSample_negative (q : Q) :
  (-1 < q)%Q -> (q < 0)%Q ->
  convertSample (Finite q) = truncate (q * 32768) /\
  -32768 <= truncate (q * 32768) <= 0.
Proof.
  intros Hlo Hneg. unfold convertSample.
  assert (Hhi : (q < 1)%Q) by (eapply Qlt_trans; [exact Hneg | reflexivity]).
  rewrite clamp_inside by assumption.
  unfold lt, zero. apply Qle_bool_false in Hneg as Hb. rewrite Hb.
  cbn [negb mul toInt16].
  assert (Hrange : -32768 <= truncate (q * 32768) <= 0).
  { unfold truncate, Qmult. cbn [Qnum Qden]. rewrite Pos.mul_1_r.
    unfold Qlt in Hlo, Hneg. cbn in Hlo, Hneg.
    apply quot_between; lia. }
  rewrite wrap16_small by lia. split; [reflexivity | exact Hrange].
Qed.

Lemma convertSample_nonnegative (q : Q) :
  (0 <= q)%Q -> (q < 1)%Q ->
  convertSample (Finite q) = truncate (q * 32767) /\
  0 <= truncate (q * 32767) <= 32767.
Proof.
  intros Hpos Hhi. unfold convertSample.
  assert (Hlo : (-1 < q)%Q) by (eapply Qlt_le_trans; [| exact Hpos]; reflexivity).
  rewrite clamp_inside by assumption.
  unfold lt, zero. apply Qle_bool_iff in Hpos as Hb. rewrite Hb.
  cbn [negb mul toInt16].
  assert (Hrange : 0 <= truncate (q * 32767) <= 32767).
  { unfold truncate, Qmult. cbn [Qnum Qden]. rewrite Pos.mul_1_r.
    unfold Qle in Hpos. unfold Qlt in Hhi. cbn in Hpos, Hhi.
    apply quot_between; lia. }
  rewrite wrap16_small by lia. split; [reflexivity | exact Hrange].
Qed.

(** C7. [convertFloat32ToInt16] gives one 16-bit integer per sample and
    rejects nothing. A sample at or below -1 is clamped to -1 and gives
    -32768; a sample at or above 1 is clamped to 1 and gives 32767; a
    sample strictly between is kept, multiplied by 32768 when negative and
    by 32767 otherwise, and stored with its fraction cut off; [NaN] is
    stored as 0 and the infinities are clamped like any other value. In
    particular 1.0, -1.0, 1.5 and 0.0 give 32767, -32768, 32767 and 0. *)
Theorem convertFloat32ToInt16_spec :
  (forall samples : list number,
      List.length (convertFloat32ToInt16 samples) = List.length samples /\
      forall (i : nat) (x : number),
        nth_error samples i = Some x ->
        nth_error (convertFloat32ToInt16 samples) i
        = Some (convertSample x)) /\
  (forall q : Q, (q <= -1)%Q -> convertSample (Finite q) = -32768) /\
  (forall q : Q, (1 <= q)%Q -> convertSample (Finite q) = 32767) /\
  (forall q : Q, (-1 < q)%Q -> (q < 0)%Q ->
                 convertSample (Finite q) = truncate (q * 32768)) /\
  (forall q : Q, (0 <= q)%Q -> (q < 1)%Q ->
                 convertSample (Finite q) = truncate (q * 32767)) /\
  (convertSample NaN = 0 /\
   convertSample (Infinity false) = 32767 /\
   convertSample (Infinity true) = -32768) /\
  (forall x : number, -32768 <= convertSample x <= 32767) /\
  convertFloat32ToInt16 [Finite 1; Finite (-1); Finite (3 # 2); Finite 0]
  = [32767; -32768; 32767; 0].
Proof.
  split; [| split; [| split; [| split; [| split; [| split; [| split]]]]]].
  - intros samples. unfold convertFloat32ToInt16. split.
    + apply length_map.
    + intros i x Hx. apply map_nth_error. exact Hx.
  - exact convertSample_low.
  - exact convertSample_high.
  - intros q Hlo Hneg. apply convertSample_negative; assumption.
  - intros q Hpos Hhi. apply convertSample_nonnegative; assumption.
  - repeat split; reflexivity.
  - intros [| q | [|]];
      [vm_compute; split; discriminate | | vm_compute; split; discriminate ..].
    destruct (Qlt_le_dec (-1) q) as [Hlo | Hlo];
      [| rewrite convertSample_low by exact Hlo; lia].
    destruct (Qlt_le_dec q 1) as [Hhi | Hhi];
      [| rewrite convertSample_high by exact Hhi; lia].
    destruct (Qlt_le_dec q 0) as [Hneg | Hpos].
    + destruct (convertSample_negative q Hlo Hneg) as [-> Hr]. lia.
    + destruct (convertSample_nonnegative q Hpos Hhi) as [-> Hr]. lia.
  - reflexivity.
Qed.

End Samples.

(** ** Audio chunking *)

Section Chunking.
Import SampleConverter AudioChunker.

Lemma samplesPerChunk_value : samplesPerChunk = 2400%nat.
Proof. reflexivity. Qed.

(** The loop, given fuel above the buffer length and a sink that
    resolves: it stops at its test, having cut the buffer into full
    chunks, sent in order, and a rest shorter than a chunk. *)
Lemma drain_spec (perChunk : nat) :
  (0 < perChunk)%nat ->
  forall (fuel : nat) (sink : nat -> IpcOutcome) (buffer : list number),
    resolves sink ->
    (List.length buffer < fuel)%nat ->
    let d := drain fuel perChunk sink buffer in
    loopEnd d = TestFailed /\
    (List.length (audioBuffer d) < perChunk)%nat /\
    exists chunks : list (list number),
      Forall (fun chunk => List.length chunk = perChunk) chunks /\
      concat chunks ++ audioBuffer d = buffer /\
      calls d = map encodeChunk chunks.
Proof.
  intros Hpos. induction fuel as [| fuel IH]; intros sink buffer Hsink Hfuel;
    [lia |].
  cbn [drain].
  destruct (perChunk <=? List.length buffer)%nat eqn:Htest.
  - apply Nat.leb_le in Htest.
    destruct (Hsink 0%nat) as [result Hres]. rewrite Hres.
    assert (Hrest : (List.length (skipn perChunk buffer) < fuel)%nat)
      by (rewrite length_skipn; lia).
    assert (Hshift : resolves (fun k => sink (S k)))
      by (intros k; apply Hsink).
    specialize (IH (fun k => sink (S k)) (skipn perChunk buffer)
                   Hshift Hrest).
    cbv zeta in IH.
    destruct IH as (Hend & Hshort & chunks & Hfull & Hcat & Hcalls).
    cbn [loopEnd audioBuffer calls].
    split; [exact Hend | split; [exact Hshort |]].
    exists (firstn perChunk buffer :: chunks). split; [| split].
    + constructor; [| exact Hfull]. rewrite length_firstn. lia.
    + cbn [concat]. rewrite <- app_assoc, Hcat. apply firstn_skipn.
    + cbn [map]. rewrite Hcalls. reflexivity.
  - apply Nat.leb_gt in Htest. cbn [loopEnd audioBuffer calls].
    split; [reflexivity | split; [exact Htest |]].
    exists []. repeat split. constructor.
Qed.


(** A rejected request ends the handler at that chunk: what follows it
    stays in the buffer, however long. *)
Lemma drain_rejected (fuel perChunk : nat) (sink : nat -> IpcOutcome)
    (buffer : list number) (message : jsstring) :
  (perChunk <= List.length buffer)%nat ->
  sink 0%nat = Rejected message ->
  drain (S fuel) perChunk sink buffer
  = mkDrained (skipn perChunk buffer)
              [encodeChunk (firstn perChunk buffer)] RequestRejected.
Proof.
  intros Hlen Hrej. cbn [drain].
  apply Nat.leb_le in Hlen. rewrite Hlen, Hrej. reflexivity.
Qed.

End Chunking.

(** * Further properties *)

(** ** Image token cost on real canvas sizes *)

Section ImageTokensMore.
Import TokenTracker.

(** For positive dimensions the small-image case agrees with tiling: the
    result is always the product of the two ceilings times 258, hence a
    positive multiple of 258. *)
Theorem calculateImageTokens_tiling (w h : Z) :
  0 < w -> 0 < h ->
  exists tx ty : Z,
    1 <= tx /\ 1 <= ty /\
    768 * (tx - 1) < w <= 768 * tx /\
    768 * (ty - 1) < h <= 768 * ty /\
    calculateImageTokens w h = tx * ty * 258.
Proof.
  intros Hw Hh.
  exists (Qceiling (w # 768)), (Qceiling (h # 768)).
  pose proof (tiles_ceiling w) as Hx. pose proof (tiles_ceiling h) as Hy.
  repeat split; try lia.
  unfold calculateImageTokens.
  destruct ((w <=? 384) && (h <=? 384)) eqn:E; [| reflexivity].
  apply andb_true_iff in E. destruct E as [Ew Eh].
  apply Z.leb_le in Ew. apply Z.leb_le in Eh.
  assert (Qceiling (w # 768) = 1) as -> by lia.
  assert (Qceiling (h # 768) = 1) as -> by lia.
  reflexivity.
Qed.

Lemma calculateImageTokens_tiling_witness :
  exists tx ty : Z,
    1 <= tx /\ 1 <= ty /\
    768 * (tx - 1) < 300 <= 768 * tx /\
    768 * (ty - 1) < 200 <= 768 * ty /\
    calculateImageTokens 300 200 = tx * ty * 258.
Proof. apply calculateImageTokens_tiling; lia. Defined.

(** A larger canvas never costs fewer tokens. *)
Theorem calculateImageTokens_monotone (w h w' h' : Z) :
  0 < w -> 0 < h -> w <= w' -> h <= h' ->
  calculateImageTokens w h <= calculateImageTokens w' h'.
Proof.
  intros Hw Hh Hww Hhh.
  destruct (calculateImageTokens_tiling w h Hw Hh)
    as (tx & ty & Hx1 & Hy1 & Hx & Hy & ->).
  destruct (calculateImageTokens_tiling w' h' ltac:(lia) ltac:(lia))
    as (tx' & ty' & Hx1' & Hy1' & Hx' & Hy' & ->).
  assert (tx <= tx') by lia. assert (ty <= ty') by lia. nia.
Qed.

Lemma calculateImageTokens_monotone_witness :
  calculateImageTokens 1280 720 <= calculateImageTokens 1920 1080.
Proof. apply calculateImageTokens_monotone; lia. Defined.

End ImageTokensMore.

(** ** Purging and accounting *)

Section Accounting.
Import TokenTracker.

(** A purge at a later time makes an earlier purge redundant. *)
Theorem cleanOldTokens_cumulative (now1 now2 : Z) (tr : t) :
  now1 <= now2 ->
  cleanOldTokens now2 (cleanOldTokens now1 tr) = cleanOldTokens now2 tr.
Proof.
  intros Hle. unfold cleanOldTokens. cbn [tokens audioStartTime]. f_equal.
  induction (tokens tr) as [| e l IH]; [reflexivity |].
  cbn [filter].
  destruct (Z.ltb_spec (now1 - 60 * 1000) (timestamp e));
    destruct (Z.ltb_spec (now2 - 60 * 1000) (timestamp e));
    cbn [filter];
    repeat match goal with
           | |- context [now2 - 60 * 1000 <? timestamp e] =>
               destruct (Z.ltb_spec (now2 - 60 * 1000) (timestamp e))
           end; try lia; rewrite IH; reflexivity.
Qed.

Lemma cleanOldTokens_cumulative_witness :
  cleanOldTokens 90000
    (cleanOldTokens 70000
       (mk [mkTokenEvent 5000 258 image; mkTokenEvent 20000 64 audio;
            mkTokenEvent 50000 64 audio] None))
  = cleanOldTokens 90000
      (mk [mkTokenEvent 5000 258 image; mkTokenEvent 20000 64 audio;
           mkTokenEvent 50000 64 audio] None).
Proof. apply cleanOldTokens_cumulative. lia. Defined.

Lemma totalCount_app (l1 l2 : list TokenEvent) :
  totalCount (l1 ++ l2) = totalCount l1 + totalCount l2.
Proof.
  unfold totalCount. induction l1 as [| e l1 IH]; cbn [app fold_right].
  - reflexivity.
  - rewrite IH. lia.
Qed.

(** The total seen by a query is the sum over the events that are less
    than 60 000 ms old at the query. *)
Lemma query_total (now : Z) (tr : t) :
  snd (getTokensInLastMinute now tr)
  = totalCount (filter (fun e => now - 60 * 1000 <? timestamp e) (tokens tr)).
Proof.
  cbn [getTokensInLastMinute snd]. rewrite sumCounts_total. reflexivity.
Qed.

(** An added event shows up in the budget with exactly its count: a
    query made after [addTokens], while the event is less than a minute
    old, returns [count] more than the same query would have returned
    without it. *)
Theorem addTokens_accounting
    (nowPush nowClean nowQuery cnt : Z) (ty : TokenType) (tr : t) :
  nowClean <= nowQuery -> nowQuery - nowPush < 60000 ->
  snd (getTokensInLastMinute nowQuery (addTokens nowPush nowClean cnt ty tr))
  = snd (getTokensInLastMinute nowQuery tr) + cnt.
Proof.
  intros Hle Hfresh. unfold getTokensInLastMinute. cbn [snd].
  unfold addTokens. rewrite (cleanOldTokens_cumulative _ _ _ Hle).
  rewrite !sumCounts_total. unfold cleanOldTokens. cbn [tokens].
  rewrite filter_app, totalCount_app. cbn [filter timestamp].
  destruct (Z.ltb_spec (nowQuery - 60 * 1000) nowPush); [| lia].
  cbn [totalCount fold_right count]. lia.
Qed.

Lemma addTokens_accounting_witness :
  snd (getTokensInLastMinute 30000
         (addTokens 10000 10000 1548 image
            (mk [mkTokenEvent 5000 64 audio] (Some 5000))))
  = snd (getTokensInLastMinute 30000
           (mk [mkTokenEvent 5000 64 audio] (Some 5000))) + 1548.
Proof. apply addTokens_accounting; lia. Defined.

End Accounting.

(** ** Audio accrual over several ticks *)

Section AccrualMore.
Import TokenTracker.




(** [startCapture] discards the budget of the previous session and
    re-arms the first-tick case: whatever the tracker held, a query right
    after returns 0 and the next audio tick only records the window
    start. *)
Theorem startCapture_rearms (acquired : bool) (r : Renderer.t)
    (nowQuery now nowPush nowClean : Z) :
  let tr := Renderer.tokenTracker (Renderer.startCapture acquired r) in
  snd (getTokensInLastMinute nowQuery tr) = 0 /\
  trackAudioTokens now nowPush nowClean tr = mk [] (Some now).
Proof. split; reflexivity. Qed.

End AccrualMore.

(** ** Throttle configuration *)

Section ThrottleMore.
Import TokenTracker Throttle.

(** With throttling on and the two settings absent or empty, the source's
    defaults apply: 1 000 000 tokens per minute at 75 percent, a
    threshold of 750 000. *)
Theorem shouldThrottle_defaults (ls : Storage) (now : Z) (tr : t) :
  ls "throttleTokens"%string = Some (lit "true") ->
  ls "maxTokensPerMin"%string = None \/
  ls "maxTokensPerMin"%string = Some [] ->
  ls "throttleAtPercent"%string = None \/
  ls "throttleAtPercent"%string = Some [] ->
  snd (shouldThrottle ls now tr)
  = (750000 <=? snd (getTokensInLastMinute now tr)).
Proof.
  intros Hon Hmax Hpct. apply throttleEnabled_iff in Hon.
  unfold shouldThrottle, throttleThreshold, maxTokensPerMin,
    throttleAtPercent, getItemOr.
  rewrite Hon. cbn [negb].
  destruct Hmax as [-> | ->]; destruct Hpct as [-> | ->]; reflexivity.
Qed.

Lemma shouldThrottle_defaults_witness :
  snd (shouldThrottle
         (fun key => if String.eqb key "throttleTokens"
                     then Some (lit "true") else None)
         1000 (addTokens 0 0 800 image init))
  = (750000 <=? snd (getTokensInLastMinute 1000 (addTokens 0 0 800 image init))).
Proof.
  apply shouldThrottle_defaults; [reflexivity | left; reflexivity ..].
Defined.

Lemma parseInt10_unparsable (v : jsstring) :
  unparsable v -> JSString.parseInt10 v = None.
Proof.
  intros (c & rest & Htrim & Hdigit & Hminus & Hplus).
  unfold JSString.parseInt10. rewrite Htrim.
  apply N.eqb_neq in Hminus. apply N.eqb_neq in Hplus.
  rewrite Hminus, Hplus. cbn [JSString.digits]. rewrite Hdigit. reflexivity.
Qed.

(** With throttling on, a setting in which [parseInt] finds no number
    switches throttling off altogether: the threshold is [NaN] and the
    comparison with it is false however many tokens have accrued. *)
Theorem shouldThrottle_unparsable (ls : Storage) (now : Z) (tr : t) :
  (exists v, ls "maxTokensPerMin"%string = Some v /\ unparsable v) \/
  (exists v, ls "throttleAtPercent"%string = Some v /\ unparsable v) ->
  snd (shouldThrottle ls now tr) = false.
Proof.
  intros Hbad. unfold shouldThrottle.
  destruct (negb (throttleEnabled ls)); [reflexivity |].
  cbn [getTokensInLastMinute].
  assert (Hparse : maxTokensPerMin ls = None \/ throttleAtPercent ls = None).
  { unfold maxTokensPerMin, throttleAtPercent, getItemOr.
    destruct Hbad as [(v & Hv & Hu) | (v & Hv & Hu)]; [left | right];
      rewrite Hv; pose proof (parseInt10_unparsable v Hu) as Hp;
      destruct Hu as (c & rest & Htrim & _);
      (destruct v as [| c0 v0]; [discriminate Htrim | exact Hp]). }
  assert (Hnone : throttleThreshold ls = None).
  { unfold throttleThreshold. destruct Hparse as [-> | ->];
      [reflexivity | destruct (maxTokensPerMin ls); reflexivity]. }
  rewrite Hnone. reflexivity.
Qed.

Lemma shouldThrottle_unparsable_witness :
  snd (shouldThrottle
         (fun key => if String.eqb key "throttleTokens"
                     then Some (lit "true")
                     else if String.eqb key "maxTokensPerMin"
                     then Some (lit " unlimited") else None)
         1000 (addTokens 0 0 2000000 image init)) = false.
Proof.
  apply shouldThrottle_unparsable. left. exists (lit " unlimited").
  split; [reflexivity |].
  exists 117%N, (lit "nlimited").
  repeat split; try reflexivity; discriminate.
Defined.

(** Adding tokens never lifts the throttle: if [shouldThrottle] answers
    true, it still does after a non-negative count is added, asked at
    the same time. *)
Theorem shouldThrottle_monotone
    (ls : Storage) (now nowPush nowClean cnt : Z) (ty : TokenType) (tr : t) :
  0 <= cnt -> nowClean <= now ->
  snd (shouldThrottle ls now tr) = true ->
  snd (shouldThrottle ls now (addTokens nowPush nowClean cnt ty tr)) = true.
Proof.
  intros Hcnt Hle. unfold shouldThrottle.
  destruct (negb (throttleEnabled ls)); [intros H; exact H |].
  unfold getTokensInLastMinute.
  destruct (throttleThreshold ls) as [threshold |]; cbn [snd];
    [| intros H; exact H].
  rewrite !Z.leb_le. intros Hold.
  unfold addTokens. rewrite (cleanOldTokens_cumulative _ _ _ Hle).
  rewrite !sumCounts_total in *. unfold cleanOldTokens in *.
  cbn [tokens] in *. rewrite filter_app, totalCount_app.
  cbn [filter timestamp].
  destruct (now - 60 * 1000 <? nowPush);
    cbn [totalCount fold_right count]; lia.
Qed.

Lemma shouldThrottle_monotone_witness :
  snd (shouldThrottle throttleAt750 1000
         (addTokens 900 900 258 image (addTokens 0 0 800 image init)))
  = true.
Proof.
  apply shouldThrottle_monotone; [lia | lia | reflexivity].
Defined.

End ThrottleMore.

(** ** More on the capture step *)

Section CaptureMore.
Import TokenTracker Renderer.

(** A manual capture skips the throttle test, the change test and the
    send interval: with a stream, a ready video and a frame that encodes
    to a valid payload, it makes exactly one [send-image-content] request
    whatever the settings, the tracker, the baseline and the time of the
    last send are, and it does not touch the baseline. *)
Theorem manual_capture_always_sends (env : Env) (r : Renderer.t)
    (data : jsstring) :
  mediaStream r = true -> 2 <= readyState env -> blob env = true ->
  base64data env = Some data -> 100 <= Z.of_nat (List.length data) ->
  let s := captureScreenshot true env r in
  calls s = [SendImageContent data] /\
  lastSentDiffData (after s) = lastSentDiffData r.
Proof.
  intros Hstream Hready Hblob Hdata Hlen.
  unfold captureScreenshot, encodeAndSend, invalidBase64.
  rewrite Hstream, Hblob, Hdata. cbn [negb].
  destruct (Z.ltb_spec (readyState env) 2); [lia |].
  destruct (Z.ltb_spec (Z.of_nat (List.length data)) 100); [lia |].
  destruct (sendOutcome env) as [res | msg]; [| split; reflexivity].
  destruct (success res); [| split; reflexivity].
  cbn [offscreenCanvas]. destruct (offscreenCanvas r) as [[w h] |];
    split; reflexivity.
Qed.

Lemma manual_capture_always_sends_witness :
  calls (captureScreenshot true
           (readyEnv throttleAt750 (solidFrame 0) 1000 failedResult)
           (mk (TokenTracker.mk [mkTokenEvent 900 5000 image] None) true None
               (Some (solidFrame 0)) 999))
  = [SendImageContent (repeat 65%N 100)] /\
  lastSentDiffData
    (after (captureScreenshot true
              (readyEnv throttleAt750 (solidFrame 0) 1000 failedResult)
              (mk (TokenTracker.mk [mkTokenEvent 900 5000 image] None) true None
                  (Some (solidFrame 0)) 999)))
  = Some (solidFrame 0).
Proof.
  apply manual_capture_always_sends; try reflexivity; cbn; lia.
Defined.

(** An automated capture that the throttle test holds back makes no
    request and leaves the canvas, the baseline and the time of the last
    send alone; the tracker comes out purged. *)
Theorem throttled_capture_sends_nothing (env : Env) (r : Renderer.t) :
  mediaStream r = true ->
  snd (Throttle.shouldThrottle (localStorage env) (nowThrottle env)
                               (tokenTracker r)) = true ->
  let s := captureScreenshot false env r in
  outcome s = RateLimited /\ calls s = [] /\
  after s = mk (cleanOldTokens (nowThrottle env) (tokenTracker r))
               true (offscreenCanvas r) (lastSentDiffData r)
               (lastScreenshotSentTime r).
Proof.
  intros Hstream Hthr. unfold captureScreenshot. rewrite Hstream.
  cbn [negb]. revert Hthr. unfold Throttle.shouldThrottle.
  destruct (negb (Throttle.throttleEnabled (localStorage env)));
    [intros H; discriminate H |].
  cbn [getTokensInLastMinute].
  destruct (Throttle.throttleThreshold (localStorage env)) as [thr |];
    cbn [snd]; [| intros H; discriminate H].
  intros ->. cbn. repeat split; reflexivity.
Qed.

Lemma throttled_capture_sends_nothing_witness :
  outcome (captureScreenshot false
             (readyEnv throttleAt750 (solidFrame 0) 1000 okResult)
             (mk (TokenTracker.mk [mkTokenEvent 900 800 image] None) true None None 0))
  = RateLimited /\
  calls (captureScreenshot false
           (readyEnv throttleAt750 (solidFrame 0) 1000 okResult)
           (mk (TokenTracker.mk [mkTokenEvent 900 800 image] None) true None None 0))
  = [] /\
  after (captureScreenshot false
           (readyEnv throttleAt750 (solidFrame 0) 1000 okResult)
           (mk (TokenTracker.mk [mkTokenEvent 900 800 image] None) true None None 0))
  = mk (cleanOldTokens 1000 (TokenTracker.mk [mkTokenEvent 900 800 image] None))
       true None None 0.
Proof.
  apply throttled_capture_sends_nothing; reflexivity.
Defined.

Lemma step_without_stream (a : Action) (r : Renderer.t) :
  (forall acquired, a <> Start acquired) ->
  mediaStream r = false ->
  mediaStream (fst (step a r)) = false /\
  Forall (fun o => o = NoMediaStream) (snd (step a r)).
Proof.
  intros Hnostart Hoff.
  destruct a as [acquired | | isManual env | now np nc]; cbn [step fst snd].
  - exfalso. apply (Hnostart acquired). reflexivity.
  - split; [reflexivity | constructor].
  - unfold captureScreenshot. rewrite Hoff. cbn.
    split; [exact Hoff | repeat constructor].
  - split; [exact Hoff | constructor].
Qed.

(** After [stopCapture], and until [startCapture] runs again, every
    capture, manual or automated, returns at the missing stream: none of
    them draws, encodes or sends anything. *)
Theorem stopped_session_captures_nothing (actions : list Action)
    (r : Renderer.t) :
  Forall (fun a => forall acquired, a <> Start acquired) actions ->
  Forall (fun o => o = NoMediaStream)
         (snd (run actions (stopCapture r))) /\
  (forall (isManual : bool) (env : Env),
      captureScreenshot isManual env (stopCapture r)
      = mkStep (stopCapture r) NoMediaStream []).
Proof.
  intros Hnostart. split; [| reflexivity].
  assert (Hoff : mediaStream (stopCapture r) = false) by reflexivity.
  revert Hoff. generalize (stopCapture r) as r0.
  induction Hnostart as [| a rest Ha _ IH]; intros r0 Hoff.
  - constructor.
  - cbn [run]. pose proof (step_without_stream a r0 Ha Hoff) as [H1 H2].
    destruct (step a r0) as [r1 o1]. cbn [fst snd] in H1, H2.
    specialize (IH r1 H1). destruct (run rest r1) as [r2 o2].
    cbn [snd] in *. apply Forall_app. split; assumption.
Qed.

Lemma stopped_session_captures_nothing_witness :
  Forall (fun o => o = NoMediaStream)
    (snd (run [Capture false (readyEnv noStorage (solidFrame 0) 5000 okResult);
               AudioTick 6000 6000 6000;
               Capture true (readyEnv noStorage (solidFrame 9) 7000 okResult)]
              (stopCapture started))) /\
  (forall (isManual : bool) (env : Env),
      captureScreenshot isManual env (stopCapture started)
      = mkStep (stopCapture started) NoMediaStream []).
Proof.
  apply stopped_session_captures_nothing.
  repeat constructor; intros acquired H; discriminate H.
Defined.

End CaptureMore.

(** ** The canvas and the baseline across captures *)

Section CanvasAndBaseline.
Import TokenTracker Renderer.

Lemma encodeAndSend_keeps (env : Env) (r : Renderer.t) :
  offscreenCanvas (after (encodeAndSend env r)) = offscreenCanvas r /\
  lastSentDiffData (after (encodeAndSend env r)) = lastSentDiffData r /\
  mediaStream (after (encodeAndSend env r)) = mediaStream r.
Proof.
  destruct (encodeAndSend_cases env r)
    as [(res & data & w & h & _ & _ & _ & _ & _ & ->) | [-> _]];
    repeat split; reflexivity.
Qed.

(** The canvas is sized once, from the video at the first capture that
    gets that far, and later captures leave it alone. *)
Lemma captureScreenshot_canvas (isManual : bool) (env : Env)
    (r : Renderer.t) :
  let s := captureScreenshot isManual env r in
  offscreenCanvas (after s) = offscreenCanvas r \/
  offscreenCanvas r = None /\
  offscreenCanvas (after s) = Some (videoWidth env, videoHeight env).
Proof.
  unfold captureScreenshot.
  destruct (negb (mediaStream r)); [left; reflexivity |].
  destruct (if isManual then (tokenTracker r, false)
            else Throttle.shouldThrottle (localStorage env)
                   (nowThrottle env) (tokenTracker r)) as [tr throttled].
  destruct throttled; [left; reflexivity |].
  cbn [offscreenCanvas mediaStream lastSentDiffData lastScreenshotSentTime].
  assert (Hinit : forall r2 : Renderer.t,
    offscreenCanvas r2
    = Some match offscreenCanvas r with
           | Some wh => wh
           | None => (videoWidth env, videoHeight env)
           end ->
    offscreenCanvas r2 = offscreenCanvas r \/
    offscreenCanvas r = None /\
    offscreenCanvas r2 = Some (videoWidth env, videoHeight env)).
  { intros r2 H2. destruct (offscreenCanvas r) as [wh |];
      [left | right; split; [reflexivity |]]; exact H2. }
  destruct (readyState env <? 2); [apply Hinit; reflexivity |].
  destruct isManual.
  - apply Hinit. destruct (encodeAndSend_keeps env
      (mk tr (mediaStream r)
          (Some match offscreenCanvas r with
                | Some wh => wh
                | None => (videoWidth env, videoHeight env)
                end) (lastSentDiffData r) (lastScreenshotSentTime r)))
      as (Hc & _). exact Hc.
  - match goal with
    | |- context [changeDetection env ?r2] =>
        pose proof (changeDetection_cases env r2) as Hdet;
          destruct (changeDetection env r2) as [o | r3]
    end.
    + apply Hinit. reflexivity.
    + destruct Hdet as (_ & _ & Hc3 & _).
      apply Hinit. destruct (encodeAndSend_keeps env r3) as (Hc & _).
      rewrite Hc. exact Hc3.
Qed.

(** Once the canvas exists its size is what the tokens of every later
    send are computed from, whatever size the video reports then. *)
Theorem canvas_size_fixed (isManual : bool) (env : Env) (r : Renderer.t)
    (w h : Z) :
  offscreenCanvas r = Some (w, h) ->
  let s := captureScreenshot isManual env r in
  offscreenCanvas (after s) = Some (w, h) /\
  (forall n, outcome s = Sent n -> n = calculateImageTokens w h).
Proof.
  intros Hcanvas s.
  assert (Hkept : offscreenCanvas (after s) = Some (w, h)).
  { destruct (captureScreenshot_canvas isManual env r) as [Hc | [Hc _]];
      [fold s in Hc; congruence | congruence]. }
  split; [exact Hkept |]. intros n Hsent.
  destruct (captureScreenshot_cases isManual env r) as (_ & _ & _ & Hs).
  destruct (Hs n Hsent) as (_ & _ & w' & h' & _ & _ & _ & Hc & Hn & _).
  fold s in Hc. congruence.
Qed.

Lemma canvas_size_fixed_witness :
  offscreenCanvas
    (after (captureScreenshot true
              (readyEnv noStorage (solidFrame 0) 5000 okResult)
              (mk TokenTracker.init true (Some (1280, 720)) None 0)))
  = Some (1280, 720) /\
  (forall n,
      outcome (captureScreenshot true
                 (readyEnv noStorage (solidFrame 0) 5000 okResult)
                 (mk TokenTracker.init true (Some (1280, 720)) None 0))
      = Sent n ->
      n = calculateImageTokens 1280 720).
Proof. apply canvas_size_fixed. reflexivity. Defined.

End CanvasAndBaseline.

(** ** What the change test does not see *)

Section Unnoticed.
Import FrameDiff.

(** Changes of at most 10 in every colour byte, and any change of the
    alpha bytes, count for nothing: no pixel is counted and, with that
    baseline, the frame is held back. *)
Theorem small_changes_not_counted (cur last : list Z) :
  Z.of_nat (List.length cur) = 57600 ->
  Z.of_nat (List.length last) = 57600 ->
  (forall p c : nat, (c < 3)%nat ->
      Z.abs (nth (4 * p + c) cur 0 - nth (4 * p + c) last 0) <= 10) ->
  changedPixels cur last = 0 /\ shouldTransmit (Some last) cur = false.
Proof.
  intros Hc Hl Hsmall.
  assert (Hzero : changedPixels cur last = 0).
  { rewrite (changedPixels_counts cur last Hc Hl). unfold differingPixels.
    assert (Hnone : forall l, filter (pixelDiffers cur last) l = []).
    { induction l as [| p l IH]; [reflexivity |]. cbn [filter].
      assert (Hp : pixelDiffers cur last p = false).
      { unfold pixelDiffers, channelDiffers.
        pose proof (Hsmall p 0%nat ltac:(lia)) as H0.
        pose proof (Hsmall p 1%nat ltac:(lia)) as H1.
        pose proof (Hsmall p 2%nat ltac:(lia)) as H2.
        rewrite Nat.add_0_r in H0.
        apply Z.ltb_ge in H0. apply Z.ltb_ge in H1. apply Z.ltb_ge in H2.
        rewrite H0, H1, H2. reflexivity. }
      rewrite Hp. exact IH. }
    rewrite Hnone. reflexivity. }
  split; [exact Hzero |].
  destruct (shouldTransmit (Some last) cur) eqn:E; [| reflexivity].
  apply shouldTransmit_threshold in E. lia.
Qed.

Lemma small_changes_not_counted_witness :
  changedPixels
    (concat (repeat [10; 0; 5; 0] (Z.to_nat 14400))) (solidFrame 0) = 0 /\
  shouldTransmit (Some (solidFrame 0))
    (concat (repeat [10; 0; 5; 0] (Z.to_nat 14400))) = false.
Proof.
  apply small_changes_not_counted; [reflexivity | reflexivity |].
  intros p c Hc.
  assert (Hcur : forall k,
    0 <= nth k (concat (repeat [10; 0; 5; 0] (Z.to_nat 14400))) 0 <= 10).
  { generalize (Z.to_nat 14400). intros n. induction n as [| n IH];
      intros k; cbn [repeat concat].
    - destruct k; cbn; lia.
    - destruct k as [| [| [| [| k]]]]; cbn [app nth]; try lia. apply IH. }
  assert (Hlast : forall k, nth k (solidFrame 0) 0 = 0 \/
                            nth k (solidFrame 0) 0 = 255 /\
                            exists q, k = (4 * q + 3)%nat).
  { unfold solidFrame, patchedFrame. cbn [repeat app].
    rewrite Nat.sub_0_r. generalize (Z.to_nat 14400). intros n.
    induction n as [| n IH]; intros k; cbn [repeat concat].
    - left. destruct k; reflexivity.
    - destruct k as [| [| [| [| k]]]]; cbn [app nth];
        [left; reflexivity | left; reflexivity | left; reflexivity
        | right; split; [reflexivity | exists 0%nat; reflexivity] |].
      destruct (IH k) as [H0 | [H255 [q Hq]]]; [left; exact H0 |].
      right. split; [exact H255 | exists (S q); lia]. }
  specialize (Hcur (4 * p + c)%nat).
  destruct (Hlast (4 * p + c)%nat) as [H0 | [_ [q Hq]]]; [| lia].
  rewrite H0. lia.
Defined.

End Unnoticed.

(** ** The audio payload can be read back *)

Section Payload.
Import SampleConverter.

Lemma base64Char_index (i : Z) :
  0 <= i < 64 ->
  base64Index (base64Char i) = i /\ base64Char i <> 61%N.
Proof.
  intros Hi. unfold base64Index, base64Char. cbv zeta.
  destruct (Z.ltb_spec i 26).
  { rewrite Z2N.id by lia. split.
    - destruct (Z.leb_spec 65 (65 + i)); [| lia].
      destruct (Z.leb_spec (65 + i) 90); [| lia]. cbn [andb]. lia.
    - intros Hpad. apply (f_equal Z.of_N) in Hpad.
      rewrite Z2N.id in Hpad; lia. }
  destruct (Z.ltb_spec i 52).
  { rewrite Z2N.id by lia. split.
    - destruct (Z.leb_spec 65 (97 + (i - 26))); [| lia].
      destruct (Z.leb_spec (97 + (i - 26)) 90); [lia |].
      destruct (Z.leb_spec 97 (97 + (i - 26))); [| lia].
      destruct (Z.leb_spec (97 + (i - 26)) 122); [| lia]. cbn [andb]. lia.
    - intros Hpad. apply (f_equal Z.of_N) in Hpad.
      rewrite Z2N.id in Hpad; lia. }
  destruct (Z.ltb_spec i 62).
  { rewrite Z2N.id by lia. split.
    - destruct (Z.leb_spec 65 (48 + (i - 52))); [lia |].
      destruct (Z.leb_spec 97 (48 + (i - 52))); [lia |].
      destruct (Z.leb_spec 48 (48 + (i - 52))); [| lia].
      destruct (Z.leb_spec (48 + (i - 52)) 57); [| lia]. cbn [andb]. lia.
    - intros Hpad. apply (f_equal Z.of_N) in Hpad.
      rewrite Z2N.id in Hpad; lia. }
  destruct (Z.eqb_spec i 62).
  { subst i. split; [reflexivity | discriminate]. }
  assert (i = 63) by lia. subst i. split; [reflexivity | discriminate].
Qed.

Lemma base64Decode_btoa_bounded (n : nat) :
  forall bytes : list Z,
    (List.length bytes <= n)%nat ->
    Forall (fun b => 0 <= b < 256) bytes ->
    base64Decode (btoa bytes) = bytes.
Proof.
  induction n as [| n IH]; intros bytes Hlen Hrange.
  { destruct bytes; [reflexivity | cbn in Hlen; lia]. }
  destruct bytes as [| a [| b [| c rest]]].
  - reflexivity.
  - inversion Hrange as [| ? ? Ha _]; subst.
    cbn [btoa base64Decode]. cbn [N.eqb Pos.eqb].
    destruct (base64Char_index (a / 4)) as [E1 _];
      [Z.div_mod_to_equations; lia |].
    destruct (base64Char_index (a mod 4 * 16)) as [E2 _];
      [Z.div_mod_to_equations; lia |].
    rewrite E1, E2. f_equal. Z.div_mod_to_equations; lia.
  - inversion Hrange as [| ? ? Ha Hr]; subst.
    inversion Hr as [| ? ? Hb _]; subst.
    cbn [btoa base64Decode].
    destruct (base64Char_index (a / 4)) as [E1 _];
      [Z.div_mod_to_equations; lia |].
    destruct (base64Char_index (a mod 4 * 16 + b / 16)) as [E2 _];
      [Z.div_mod_to_equations; lia |].
    destruct (base64Char_index (b mod 16 * 4)) as [E3 N3];
      [Z.div_mod_to_equations; lia |].
    apply N.eqb_neq in N3. rewrite N3. cbn [N.eqb Pos.eqb].
    rewrite E1, E2, E3.
    f_equal; [| f_equal]; Z.div_mod_to_equations; lia.
  - inversion Hrange as [| ? ? Ha Hr]; subst.
    inversion Hr as [| ? ? Hb Hr2]; subst.
    inversion Hr2 as [| ? ? Hc Hrest]; subst.
    cbn [btoa base64Decode].
    destruct (base64Char_index (a / 4)) as [E1 _];
      [Z.div_mod_to_equations; lia |].
    destruct (base64Char_index (a mod 4 * 16 + b / 16)) as [E2 _];
      [Z.div_mod_to_equations; lia |].
    destruct (base64Char_index (b mod 16 * 4 + c / 64)) as [E3 N3];
      [Z.div_mod_to_equations; lia |].
    destruct (base64Char_index (c mod 64)) as [E4 N4];
      [Z.div_mod_to_equations; lia |].
    apply N.eqb_neq in N3. apply N.eqb_neq in N4. rewrite N3, N4.
    rewrite E1, E2, E3, E4.
    rewrite (IH rest) by (cbn in Hlen; try lia; exact Hrest).
    f_equal; [| f_equal; [| f_equal]]; Z.div_mod_to_equations; lia.
Qed.

(** [arrayBufferToBase64] loses nothing: decoding its output gives the
    bytes back, for every buffer of bytes. *)
Theorem arrayBufferToBase64_decodes (buffer : list Z) :
  Forall (fun b => 0 <= b < 256) buffer ->
  base64Decode (arrayBufferToBase64 buffer) = buffer.
Proof.
  intros Hrange. unfold arrayBufferToBase64.
  apply (base64Decode_btoa_bounded (List.length buffer)); [lia | exact Hrange].
Qed.

Lemma arrayBufferToBase64_decodes_witness :
  base64Decode (arrayBufferToBase64 [0; 255; 128; 7; 64]) = [0; 255; 128; 7; 64].
Proof.
  apply arrayBufferToBase64_decodes. repeat constructor; lia.
Defined.

End Payload.

Section PayloadSamples.
Import SampleConverter AudioChunker.

Lemma bufferOf_bytes (int16Array : list Z) :
  Forall (fun b => 0 <= b < 256) (bufferOf int16Array).
Proof.
  unfold bufferOf. induction int16Array as [| v l IH]; cbn [flat_map app].
  - constructor.
  - constructor; [Z.div_mod_to_equations; lia |].
    constructor; [Z.div_mod_to_equations; lia | exact IH].
Qed.

Lemma int16OfBuffer_bufferOf (int16Array : list Z) :
  Forall (fun v => -32768 <= v <= 32767) int16Array ->
  int16OfBuffer (bufferOf int16Array) = int16Array.
Proof.
  unfold bufferOf. induction 1 as [| v l Hv _ IH];
    cbn [flat_map app int16OfBuffer]; [reflexivity |].
  rewrite IH. f_equal.
  destruct (Z.ltb_spec (v mod 65536 mod 256 + 256 * (v mod 65536 / 256))
                       32768);
    Z.div_mod_to_equations; lia.
Qed.

Lemma convertSample_range (x : number) :
  -32768 <= convertSample x <= 32767.
Proof.
  destruct x as [| q | [|]];
    [vm_compute; split; discriminate | | vm_compute; split; discriminate ..].
  destruct (Qlt_le_dec (-1) q) as [Hlo | Hlo];
    [| rewrite convertSample_low by exact Hlo; lia].
  destruct (Qlt_le_dec q 1) as [Hhi | Hhi];
    [| rewrite convertSample_high by exact Hhi; lia].
  destruct (Qlt_le_dec q 0) as [Hneg | Hpos].
  - destruct (convertSample_negative q Hlo Hneg) as [-> Hr]. lia.
  - destruct (convertSample_nonnegative q Hpos Hhi) as [-> Hr]. lia.
Qed.

(** The request built from a chunk carries the converted samples and
    nothing else: decoding the base64 text and reading the bytes as
    little-endian 16-bit integers gives back [convertFloat32ToInt16] of
    the chunk, sample for sample, with the fixed MIME type beside it. *)
Theorem encodeChunk_decodes (chunk : list number) :
  exists data : jsstring,
    encodeChunk chunk = SendAudioContent data (lit "audio/pcm;rate=24000") /\
    int16OfBuffer (base64Decode data) = convertFloat32ToInt16 chunk.
Proof.
  eexists. split; [reflexivity |].
  unfold arrayBufferToBase64.
  rewrite (base64Decode_btoa_bounded
             (List.length (bufferOf (convertFloat32ToInt16 chunk))))
    by (try lia; apply bufferOf_bytes).
  apply int16OfBuffer_bufferOf.
  unfold convertFloat32ToInt16. apply Forall_forall. intros v Hv.
  apply in_map_iff in Hv. destruct Hv as (x & <- & _).
  apply convertSample_range.
Qed.

Lemma length_btoa_bounded (n : nat) :
  forall bytes : list Z,
    (List.length bytes <= n)%nat ->
    List.length (btoa bytes) = (4 * ((List.length bytes + 2) / 3))%nat.
Proof.
  induction n as [| n IH]; intros bytes Hlen.
  { destruct bytes; [reflexivity | cbn in Hlen; lia]. }
  destruct bytes as [| a [| b [| c rest]]]; try reflexivity.
  cbn [btoa List.length]. rewrite (IH rest) by (cbn in Hlen; lia).
  replace (S (S (S (List.length rest))) + 2)%nat
    with (List.length rest + 2 + 1 * 3)%nat by lia.
  rewrite Nat.div_add by lia. lia.
Qed.

Lemma length_bufferOf (int16Array : list Z) :
  List.length (bufferOf int16Array) = (2 * List.length int16Array)%nat.
Proof.
  unfold bufferOf. induction int16Array as [| v l IH];
    cbn [flat_map app List.length]; lia.
Qed.

Lemma drain_calls_full (perChunk : nat) :
  forall (fuel : nat) (sink : nat -> IpcOutcome) (buffer : list number),
    Forall (fun call => exists chunk,
                List.length chunk = perChunk /\ call = encodeChunk chunk)
           (calls (drain fuel perChunk sink buffer)).
Proof.
  induction fuel as [| fuel IH]; intros sink buffer; cbn [drain calls].
  - constructor.
  - destruct (perChunk <=? List.length buffer)%nat eqn:Htest;
      [| constructor].
    apply Nat.leb_le in Htest.
    assert (Hhead : exists chunk,
              List.length chunk = perChunk /\
              encodeChunk (firstn perChunk buffer) = encodeChunk chunk).
    { exists (firstn perChunk buffer). split; [| reflexivity].
      rewrite length_firstn. lia. }
    destruct (sink 0%nat); cbn [calls]; constructor; auto.
Qed.

(** Whatever arrives and however the sink answers, every request a
    handler sends is a full chunk: 2400 samples, 4800 bytes, 6400 base64
    characters, MIME type [audio/pcm;rate=24000]. A partial chunk is
    never sent. *)
Theorem onaudioprocess_sends_full_chunks (sink : nat -> IpcOutcome)
    (inputData buffer : list number) :
  Forall (fun call => exists data,
              call = SendAudioContent data (lit "audio/pcm;rate=24000") /\
              Z.of_nat (List.length data) = 6400)
         (calls (onaudioprocess sink inputData buffer)).
Proof.
  unfold onaudioprocess, onaudioprocessWith.
  eapply Forall_impl; [| apply drain_calls_full].
  intros call (chunk & Hlen & ->). eexists. split; [reflexivity |].
  unfold arrayBufferToBase64.
  rewrite (length_btoa_bounded _ _ (Nat.le_refl _)).
  rewrite length_bufferOf. unfold convertFloat32ToInt16.
  rewrite length_map, Hlen. reflexivity.
Qed.

End PayloadSamples.

(** ** Chunk boundaries and callback framing *)

Section Framing.
Import SampleConverter AudioChunker.

(** A sample sequence has one cutting into full chunks and a short
    rest. *)
Lemma chunks_unique (perChunk : nat) (cs1 : list (list number)) :
  (0 < perChunk)%nat ->
  forall (cs2 : list (list number)) (r1 r2 : list number),
    Forall (fun chunk => List.length chunk = perChunk) cs1 ->
    Forall (fun chunk => List.length chunk = perChunk) cs2 ->
    (List.length r1 < perChunk)%nat -> (List.length r2 < perChunk)%nat ->
    concat cs1 ++ r1 = concat cs2 ++ r2 ->
    cs1 = cs2 /\ r1 = r2.
Proof.
  intros Hpos. induction cs1 as [| c1 cs1 IH];
    intros cs2 r1 r2 H1 H2 Hr1 Hr2 Heq.
  - destruct cs2 as [| c2 cs2]; [split; [reflexivity | exact Heq] |].
    exfalso. inversion H2 as [| ? ? Hc2 _]; subst.
    apply (f_equal (@List.length number)) in Heq.
    cbn [concat app] in Heq. rewrite !length_app in Heq. lia.
  - inversion H1 as [| ? ? Hc1 H1']; subst.
    destruct cs2 as [| c2 cs2].
    + exfalso. apply (f_equal (@List.length number)) in Heq.
      cbn [concat app] in Heq. rewrite !length_app in Heq. lia.
    + inversion H2 as [| ? ? Hc2 H2']; subst.
      cbn [concat] in Heq. rewrite <- !app_assoc in Heq.
      apply app_eq_app in Heq.
      destruct Heq as [l [[E1 E2] | [E1 E2]]].
      * assert (l = []) by
          (apply length_zero_iff_nil;
           apply (f_equal (@List.length number)) in E1;
           rewrite length_app in E1; lia).
        subst l. rewrite app_nil_r in E1. cbn [app] in E2. subst c2.
        destruct (IH cs2 r1 r2 H1' H2' Hr1 Hr2 (eq_sym E2)) as [-> ->].
        split; reflexivity.
      * assert (l = []) by
          (apply length_zero_iff_nil;
           apply (f_equal (@List.length number)) in E1;
           rewrite length_app in E1; lia).
        subst l. rewrite app_nil_r in E1. cbn [app] in E2. subst c2.
        destruct (IH cs2 r1 r2 H1' H2' Hr1 Hr2 E2) as [-> ->].
        split; reflexivity.
Qed.

(** Chunk boundaries do not depend on how the driver slices the stream
    into callbacks: with sinks that resolve, two handler runs in a row
    send the same requests, and leave the same backlog, as one run that
    receives both inputs at once. *)
Theorem chunking_ignores_framing (perChunk : nat)
    (sink1 sink2 sink : nat -> IpcOutcome)
    (input1 input2 buffer : list number) :
  (0 < perChunk)%nat -> resolves sink1 -> resolves sink2 -> resolves sink ->
  let d1 := onaudioprocessWith perChunk sink1 input1 buffer in
  let d2 := onaudioprocessWith perChunk sink2 input2 (audioBuffer d1) in
  let d := onaudioprocessWith perChunk sink (input1 ++ input2) buffer in
  calls d = calls d1 ++ calls d2 /\ audioBuffer d = audioBuffer d2.
Proof.
  intros Hpos Hs1 Hs2 Hs d1 d2 d.
  destruct (drain_spec perChunk Hpos (S (List.length (buffer ++ input1)))
              sink1 (buffer ++ input1) Hs1 ltac:(lia))
    as (_ & Hr1 & cs1 & Hf1 & Hcat1 & Hcalls1).
  fold (onaudioprocessWith perChunk sink1 input1 buffer) in Hr1, Hcat1, Hcalls1.
  fold d1 in Hr1, Hcat1, Hcalls1.
  destruct (drain_spec perChunk Hpos
              (S (List.length (audioBuffer d1 ++ input2)))
              sink2 (audioBuffer d1 ++ input2) Hs2 ltac:(lia))
    as (_ & Hr2 & cs2 & Hf2 & Hcat2 & Hcalls2).
  fold (onaudioprocessWith perChunk sink2 input2 (audioBuffer d1))
    in Hr2, Hcat2, Hcalls2.
  fold d2 in Hr2, Hcat2, Hcalls2.
  destruct (drain_spec perChunk Hpos
              (S (List.length (buffer ++ input1 ++ input2)))
              sink (buffer ++ input1 ++ input2) Hs ltac:(lia))
    as (_ & Hr & cs & Hf & Hcat & Hcalls).
  fold (onaudioprocessWith perChunk sink (input1 ++ input2) buffer)
    in Hr, Hcat, Hcalls.
  fold d in Hr, Hcat, Hcalls.
  assert (Hsame : concat cs ++ audioBuffer d
                  = concat (cs1 ++ cs2) ++ audioBuffer d2).
  { rewrite Hcat, concat_app, <- app_assoc, Hcat2.
    rewrite (app_assoc (concat cs1)), Hcat1, <- app_assoc. reflexivity. }
  destruct (chunks_unique perChunk cs Hpos (cs1 ++ cs2) _ _ Hf
              ltac:(apply Forall_app; split; assumption) Hr Hr2 Hsame)
    as [Hcs Hrest].
  split; [| exact Hrest].
  rewrite Hcalls, Hcs, map_app, Hcalls1, Hcalls2. reflexivity.
Qed.

Lemma chunking_ignores_framing_witness :
  calls (onaudioprocessWith 3 (fun _ => okResult)
           ([Finite 0; Finite 1] ++ [Finite (1 # 2); Finite (-1); Finite 0])
           [Finite (1 # 4); Finite (1 # 8)])
  = calls (onaudioprocessWith 3 (fun _ => okResult) [Finite 0; Finite 1]
             [Finite (1 # 4); Finite (1 # 8)])
    ++ calls (onaudioprocessWith 3 (fun _ => okResult)
                [Finite (1 # 2); Finite (-1); Finite 0]
                (audioBuffer
                   (onaudioprocessWith 3 (fun _ => okResult)
                      [Finite 0; Finite 1]
                      [Finite (1 # 4); Finite (1 # 8)]))) /\
  audioBuffer (onaudioprocessWith 3 (fun _ => okResult)
                 ([Finite 0; Finite 1]
                  ++ [Finite (1 # 2); Finite (-1); Finite 0])
                 [Finite (1 # 4); Finite (1 # 8)])
  = audioBuffer (onaudioprocessWith 3 (fun _ => okResult)
                   [Finite (1 # 2); Finite (-1); Finite 0]
                   (audioBuffer
                      (onaudioprocessWith 3 (fun _ => okResult)
                         [Finite 0; Finite 1]
                         [Finite (1 # 4); Finite (1 # 8)]))).
Proof.
  apply chunking_ignores_framing;
    [lia | intros k; eexists; reflexivity ..].
Defined.

(** A request that rejects takes its chunk with it: with 4000 samples
    waiting, a first request that rejects ends the handler with that
    chunk's 2400 samples gone from the backlog and not sent again, and
    1600 left. *)
Lemma drain_rejected_witness :
  drain (S 4000) 2400 (fun _ => Rejected (lit "closed"))
        (repeat (Finite 0) 4000)
  = mkDrained (skipn 2400 (repeat (Finite 0) 4000))
      [encodeChunk (firstn 2400 (repeat (Finite 0) 4000))] RequestRejected.
Proof.
  apply (drain_rejected 4000 2400 (fun _ => Rejected (lit "closed"))
           (repeat (Finite 0) 4000) (lit "closed"));
    [rewrite repeat_length; lia | reflexivity].
Defined.

End Framing.

(** ** Conversion keeps the order of samples *)

Section SampleOrder.
Import SampleConverter.

Lemma truncate_floor (p : Q) : 0 <= Qnum p -> truncate p = Qfloor p.
Proof.
  intros Hp. unfold truncate, Qfloor. destruct p as [n d]. cbn [Qnum Qden] in *.
  apply Z.quot_div_nonneg; lia.
Qed.

Lemma truncate_ceiling (p : Q) : Qnum p <= 0 -> truncate p = Qceiling p.
Proof.
  intros Hp. unfold truncate, Qceiling, Qfloor, Qopp.
  destruct p as [n d]. cbn [Qnum Qden] in *.
  replace n with (- (- n)) at 1 by lia.
  rewrite Z.quot_opp_l by lia. rewrite Z.quot_div_nonneg by lia. reflexivity.
Qed.

Lemma truncate_monotone (p q : Q) :
  (p <= q)%Q -> truncate p <= truncate q.
Proof.
  intros Hle.
  destruct (Z.le_gt_cases 0 (Qnum p)) as [Hp | Hp].
  - assert (Hq : 0 <= Qnum q) by (unfold Qle in Hle; nia).
    rewrite (truncate_floor p Hp), (truncate_floor q Hq).
    apply Qfloor_resp_le. exact Hle.
  - destruct (Z.le_gt_cases 0 (Qnum q)) as [Hq | Hq].
    + rewrite (truncate_ceiling p) by lia. rewrite (truncate_floor q Hq).
      assert (Qceiling p <= 0).
      { unfold Qceiling, Qfloor, Qopp. destruct p as [n d].
        cbn [Qnum Qden] in *.
        pose proof (Z.div_pos (- n) (Z.pos d) ltac:(lia) ltac:(lia)). lia. }
      assert (0 <= Qfloor q).
      { unfold Qfloor. destruct q as [n d]. cbn [Qnum Qden] in *.
        apply Z.div_pos; lia. }
      lia.
    + rewrite (truncate_ceiling p), (truncate_ceiling q) by lia.
      apply Qceiling_resp_le. exact Hle.
Qed.

(** Conversion never reorders samples: a sample that is not larger than
    another is not converted to a larger integer, across the clamping
    points and across zero, where the scale factor changes. *)
Theorem convertSample_monotone (p q : Q) :
  (p <= q)%Q -> convertSample (Finite p) <= convertSample (Finite q).
Proof.
  intros Hle.
  pose proof (convertSample_range (Finite p)) as Rp.
  pose proof (convertSample_range (Finite q)) as Rq.
  destruct (Qlt_le_dec (-1) p) as [Hplo | Hplo];
    [| rewrite (convertSample_low p Hplo); lia].
  destruct (Qlt_le_dec q 1) as [Hqhi | Hqhi];
    [| rewrite (convertSample_high q Hqhi); lia].
  assert (Hqlo : (-1 < q)%Q) by (eapply Qlt_le_trans; eassumption).
  assert (Hphi : (p < 1)%Q) by (eapply Qle_lt_trans; eassumption).
  destruct (Qlt_le_dec q 0) as [Hqneg | Hqpos].
  - assert (Hpneg : (p < 0)%Q) by (eapply Qle_lt_trans; eassumption).
    destruct (convertSample_negative p Hplo Hpneg) as [-> _].
    destruct (convertSample_negative q Hqlo Hqneg) as [-> _].
    apply truncate_monotone. apply Qmult_le_compat_r; [exact Hle |].
    discriminate.
  - destruct (convertSample_nonnegative q Hqpos Hqhi) as [-> Hrq].
    destruct (Qlt_le_dec p 0) as [Hpneg | Hppos].
    + destruct (convertSample_negative p Hplo Hpneg) as [-> Hrp]. lia.
    + destruct (convertSample_nonnegative p Hppos Hphi) as [-> _].
      apply truncate_monotone. apply Qmult_le_compat_r; [exact Hle |].
      discriminate.
Qed.

Lemma convertSample_monotone_witness :
  convertSample (Finite (- (1 # 2))) <= convertSample (Finite (1 # 3)).
Proof. apply convertSample_monotone. discriminate. Defined.

End SampleOrder.

(** ** Manual screenshots and session initialisation *)

Section ManualAndInit.
Import JSString.



Lemma trimStart_split (s : jsstring) :
  exists pre : jsstring,
    s = pre ++ trimStart s /\
    Forall (fun c => isWhiteSpace c = true) pre.
Proof.
  induction s as [| c s (pre & Hs & Hpre)]; cbn [trimStart].
  - exists []. split; [reflexivity | constructor].
  - destruct (isWhiteSpace c) eqn:E.
    + exists (c :: pre). split; [cbn; congruence | constructor; assumption].
    + exists []. split; [reflexivity | constructor].
Qed.

Lemma trimStart_head (s : jsstring) (c : N) (rest : jsstring) :
  trimStart s = c :: rest -> isWhiteSpace c = false.
Proof.
  induction s as [| c0 s IH]; cbn [trimStart]; [discriminate |].
  destruct (isWhiteSpace c0) eqn:E; [exact IH |].
  intros H. inversion H; subst. exact E.
Qed.

(** [trim] removes white space from both ends and nothing else. *)
Lemma trim_split (s : jsstring) :
  exists pre suf : jsstring,
    s = pre ++ trim s ++ suf /\
    Forall (fun c => isWhiteSpace c = true) pre /\
    Forall (fun c => isWhiteSpace c = true) suf /\
    (forall c rest, trim s = c :: rest ->
       isWhiteSpace c = false /\ isWhiteSpace (last (trim s) c) = false).
Proof.
  destruct (trimStart_split s) as (pre & Hs & Hpre).
  destruct (trimStart_split (rev (trimStart s))) as (fus & Hr & Hfus).
  exists pre, (rev fus).
  assert (Ht : trimStart s = trim s ++ rev fus).
  { unfold trim, trimEnd. rewrite <- rev_app_distr, <- Hr.
    symmetry. apply rev_involutive. }
  split; [rewrite <- Ht; exact Hs |].
  split; [exact Hpre |]. split; [apply Forall_rev; exact Hfus |].
  intros c rest Htrim. split.
  - rewrite Htrim in Ht. cbn [app] in Ht.
    exact (trimStart_head s c _ Ht).
  - unfold trim, trimEnd in *.
    destruct (trimStart (rev (trimStart s))) as [| c' u] eqn:Eu;
      [discriminate Htrim |].
    cbn [rev]. rewrite last_last.
    exact (trimStart_head _ _ _ Eu).
Qed.

(** [initializeGemini] makes its request exactly when the stored API key
    has a visible character; a missing, empty or blank key means no
    request and no status change. The key it sends is the stored key
    without the white space at its ends, and the status becomes 'Live'
    or 'error' with the truth of the answer, and is left alone when the
    request rejects. *)
Theorem initializeGemini_spec (ls : Storage)
    (profileArg languageArg : option jsstring) (respond : InitOutcome) :
  let result := initializeGemini ls profileArg languageArg respond in
  (blank (ls "apiKey"%string) -> result = ([], None)) /\
  (~ blank (ls "apiKey"%string) ->
   exists (stored pre suf : jsstring) (request : InitRequest),
     ls "apiKey"%string = Some stored /\
     fst result = [request] /\
     stored = pre ++ apiKey request ++ suf /\
     Forall (fun c => isWhiteSpace c = true) pre /\
     Forall (fun c => isWhiteSpace c = true) suf /\
     (exists c rest,
         apiKey request = c :: rest /\
         isWhiteSpace c = false /\
         isWhiteSpace (last (apiKey request) c) = false) /\
     snd result = match respond with
                  | InitResolved true => Some (lit "Live")
                  | InitResolved false => Some (lit "error")
                  | InitRejected => None
                  end).
Proof.
  unfold initializeGemini. cbv zeta. split.
  - intros Hblank. destruct (ls "apiKey"%string) as [stored |];
      [| reflexivity].
    cbn [option_map]. cbn [blank] in Hblank.
    apply trim_empty_iff in Hblank. apply length_zero_iff_nil in Hblank.
    rewrite Hblank. reflexivity.
  - intros Hvisible. destruct (ls "apiKey"%string) as [stored |];
      [| exfalso; apply Hvisible; exact I].
    cbn [option_map].
    destruct (trim_split stored) as (pre & suf & Hs & Hpre & Hsuf & Hends).
    destruct (trim stored) as [| c rest] eqn:Etrim.
    + exfalso. apply Hvisible. cbn [blank]. apply trim_empty_iff.
      rewrite Etrim. reflexivity.
    + destruct (Hends c rest eq_refl) as [Hfirst Hlast].
      exists stored, pre, suf.
      eexists (mkInitRequest (c :: rest) _ _ _).
      destruct respond as [[|] |]; cbn [fst snd apiKey];
        (split; [reflexivity |]); (split; [reflexivity |]);
        (split; [exact Hs |]); (split; [exact Hpre |]);
        (split; [exact Hsuf |]);
        (split; [exists c, rest; auto | reflexivity]).
Qed.

End ManualAndInit.

(** ** Conversation history *)

Section Conversations.
Import ConversationStorage.

Variable History : Type.

Lemma jsstring_eqb_refl (a : jsstring) : jsstring_eqb a a = true.
Proof. apply jsstring_eqb_eq. reflexivity. Qed.

Lemma jsstring_eqb_neq (a b : jsstring) : a <> b -> jsstring_eqb a b = false.
Proof.
  intros Hne. destruct (jsstring_eqb a b) eqn:E; [| reflexivity].
  apply jsstring_eqb_eq in E. contradiction.
Qed.

(** A saved session is what a lookup by its id returns, with the
    timestamp parsed from the id and the time of the save; whatever was
    stored under that id before is replaced as a whole, and lookups by
    other ids are not affected. *)
Theorem save_then_get (id : jsstring) (history : History) (now : Z)
    (store : list (Session History)) :
  getConversationSession id (saveConversationSession id history now store)
  = Some (mkSession id (parseInt id) history now) /\
  (forall other : jsstring,
      other <> id ->
      getConversationSession other
        (saveConversationSession id history now store)
      = getConversationSession other store).
Proof.
  unfold getConversationSession, saveConversationSession. cbv zeta.
  split.
  - induction store as [| r rest IH]; cbn [put get sessionId].
    + rewrite jsstring_eqb_refl. reflexivity.
    + destruct (jsstring_eqb (sessionId r) id) eqn:E;
        cbn [get sessionId].
      * rewrite jsstring_eqb_refl. reflexivity.
      * rewrite E. exact IH.
  - intros other Hother.
    induction store as [| r rest IH]; cbn [put get sessionId].
    + rewrite (jsstring_eqb_neq id other) by congruence. reflexivity.
    + destruct (jsstring_eqb (sessionId r) id) eqn:E;
        cbn [get sessionId].
      * apply jsstring_eqb_eq in E. rewrite E.
        rewrite (jsstring_eqb_neq id other) by congruence. reflexivity.
      * destruct (jsstring_eqb (sessionId r) other); [reflexivity | exact IH].
Qed.

Lemma put_ids (record : Session History) (store : list (Session History)) :
  (forall id, In id (map sessionId (put record store)) ->
              id = sessionId record \/ In id (map sessionId store)) /\
  (NoDup (map sessionId store) -> NoDup (map sessionId (put record store))).
Proof.
  induction store as [| r rest [IHin IHnd]]; cbn [put map].
  - split; [intros id [H | []]; left; congruence |].
    intros _. repeat constructor. intros [].
  - destruct (jsstring_eqb (sessionId r) (sessionId record)) eqn:E;
      cbn [map].
    + apply jsstring_eqb_eq in E. split.
      * intros id [H | H]; [left; congruence | right; right; exact H].
      * intros Hnd. inversion Hnd as [| ? ? Hnotin Hrest]; subst.
        constructor; [rewrite <- E; exact Hnotin | exact Hrest].
    + split.
      * intros id [H | H]; [right; left; exact H |].
        destruct (IHin id H) as [Hid | Hid]; [left | right; right]; exact Hid.
      * intros Hnd. inversion Hnd as [| ? ? Hnotin Hrest]; subst.
        constructor; [| exact (IHnd Hrest)].
        intros Hin. destruct (IHin _ Hin) as [Hid | Hid];
          [| contradiction].
        rewrite Hid, jsstring_eqb_refl in E. discriminate E.
Qed.

(** Saving keeps the store free of duplicate ids. *)
Theorem save_keeps_ids_unique (id : jsstring) (history : History) (now : Z)
    (store : list (Session History)) :
  NoDup (map sessionId store) ->
  NoDup (map sessionId (saveConversationSession id history now store)).
Proof.
  intros Hnd. unfold saveConversationSession. cbv zeta.
  apply put_ids. exact Hnd.
Qed.

Lemma insert_permutation (compare : Session History -> Session History -> Z)
    (x : Session History) (l : list (Session History)) :
  Permutation (insert compare x l) (x :: l).
Proof.
  induction l as [| y l IH]; cbn [insert]; [reflexivity |].
  destruct (compare x y <=? 0); [reflexivity |].
  rewrite IH. apply perm_swap.
Qed.

Lemma arraySort_permutation
    (compare : Session History -> Session History -> Z)
    (l : list (Session History)) :
  Permutation (arraySort compare l) l.
Proof.
  unfold arraySort. induction l as [| x l IH]; cbn [fold_right];
    [reflexivity |].
  rewrite insert_permutation. constructor. exact IH.
Qed.

Lemma insert_newerFirst (x : Session History) (l : list (Session History)) :
  Sorted newerFirst l ->
  Sorted newerFirst (insert (fun a b => timeOf b - timeOf a) x l).
Proof.
  induction 1 as [| y l Hsorted IH Hhd]; cbn [insert].
  - repeat constructor.
  - destruct (Z.leb_spec (timeOf y - timeOf x) 0).
    + constructor; [constructor; assumption |].
      constructor. unfold newerFirst. lia.
    + constructor; [exact IH |].
      destruct l as [| z l]; cbn [insert].
      * constructor. unfold newerFirst. lia.
      * destruct (timeOf z - timeOf x <=? 0);
          constructor; [unfold newerFirst; lia |].
        inversion Hhd; assumption.
Qed.

Lemma arraySort_newerFirst (l : list (Session History)) :
  Sorted newerFirst (arraySort (fun a b => timeOf b - timeOf a) l).
Proof.
  unfold arraySort. induction l as [| x l IH]; cbn [fold_right].
  - constructor.
  - apply insert_newerFirst. exact IH.
Qed.

Lemma newerFirst_transitive : Transitive (@newerFirst History).
Proof. intros a b c Hab Hbc. unfold newerFirst in *. lia. Qed.

(** [getAllConversationSessions] lists the stored sessions whose
    timestamp is a number, each exactly as often as it is stored, newest
    first: every session in the list is at least as new as all that
    follow it. A session whose id holds no number is not in the list. *)
Theorem getAll_newest_first (store : list (Session History)) :
  StronglySorted newerFirst (getAllConversationSessions store) /\
  Permutation (getAllConversationSessions store)
    (filter (fun r => match timestamp r with
                      | Some _ => true
                      | None => false
                      end) store) /\
  (forall r, In r (getAllConversationSessions store) ->
             In r store /\ timestamp r <> None).
Proof.
  assert (Hperm : Permutation (getAllConversationSessions store)
            (filter (fun r => match timestamp r with
                              | Some _ => true
                              | None => false
                              end) store)).
  { unfold getAllConversationSessions, indexGetAll.
    rewrite arraySort_permutation. apply arraySort_permutation. }
  split; [| split; [exact Hperm |]].
  - apply Sorted_StronglySorted; [exact newerFirst_transitive |].
    apply arraySort_newerFirst.
  - intros r Hin. apply (Permutation_in _ Hperm) in Hin.
    apply filter_In in Hin. destruct Hin as [Hin Hts].
    split; [exact Hin |]. destruct (timestamp r); [discriminate | discriminate Hts].
Qed.

(** A session saved under an id in which [parseInt] finds no number can
    be fetched by that id but never shows in the list of all
    sessions. *)
Theorem unnumbered_session_hidden (id : jsstring) (history : History)
    (now : Z) (store : list (Session History)) :
  parseInt id = None ->
  getConversationSession id (saveConversationSession id history now store)
  = Some (mkSession id None history now) /\
  ~ In (mkSession id None history now)
       (getAllConversationSessions
          (saveConversationSession id history now store)).
Proof.
  intros Hnan. split.
  - destruct (save_then_get id history now store) as [Hget _].
    rewrite Hget, Hnan. reflexivity.
  - intros Hin.
    destruct (getAll_newest_first
                (saveConversationSession id history now store))
      as (_ & _ & Hall).
    destruct (Hall _ Hin) as [_ Hts]. apply Hts. reflexivity.
Qed.

End Conversations.

Lemma save_keeps_ids_unique_witness :
  NoDup (map ConversationStorage.sessionId
           (ConversationStorage.saveConversationSession
              (lit "1700000000000") tt 1700000005000
              [ConversationStorage.mkSession (lit "1700000000000")
                 (Some 1700000000000) tt 1700000001000;
               ConversationStorage.mkSession (lit "1690000000000")
                 (Some 1690000000000) tt 1690000001000])).
Proof.
  apply save_keeps_ids_unique. cbn [map ConversationStorage.sessionId].
  constructor.
  - intros [H | []]. discriminate H.
  - constructor; [intros [] | constructor].
Defined.

Lemma unnumbered_session_hidden_witness :
  ConversationStorage.getConversationSession (lit "draft")
    (ConversationStorage.saveConversationSession (lit "draft") tt 5000
       [ConversationStorage.mkSession (lit "1700000000000")
          (Some 1700000000000) tt 1700000001000])
  = Some (ConversationStorage.mkSession (lit "draft") None tt 5000) /\
  ~ In (ConversationStorage.mkSession (lit "draft") None tt 5000)
       (ConversationStorage.getAllConversationSessions
          (ConversationStorage.saveConversationSession (lit "draft") tt 5000
             [ConversationStorage.mkSession (lit "1700000000000")
                (Some 1700000000000) tt 1700000001000])).
Proof.
  apply unnumbered_session_hidden. reflexivity.
Defined.

(** ** Draining the backlog *)

Section Draining.
Import SampleConverter AudioChunker.




End Draining.
